(** * pycloudmusic: the login session manager and the API client

    A shallow embedding of [pycloudmusic/music163.py]: the classes
    [Music163Api] ([my], [music], [playlist]) and [LoginMusic163]
    ([_md5], [_SimpleCookieToCookieStr], [_login], [email], [cellphone],
    [qr_check], [qr]).

    Python values are modelled as follows.
    - [str] is [string] (a Rocq string is read as the UTF-8 bytes of the
      Python string), [int] is [Z], [bool] is [bool], [None] is [JNull] or
      [option].
    - The value returned by [req.json()] is a [json] tree; a JSON object is
      an association list in key order, looked up by its first match.
      Numbers are integers ([JInt]): the remote [code] field is an integer.
    - An exception is a value of [exn] that knows its class; the class
      hierarchy is [base_of].  A computation that may raise returns a
      [result].
    - The network and the clock are a [world]: the trace of the requests
      sent and of the sleeps taken, newest first.  What the remote answers
      to the k-th request is an oracle, so every property is proved for all
      remotes or for the scripted remote it names. *)

From Stdlib Require Import ZArith List String Ascii Bool Lia.
From Equations Require Import Equations.
Import ListNotations.

Set Warnings "-register-all".

Local Open Scope string_scope.
Local Open Scope Z_scope.

(** ** Python values *)

Inductive json : Type :=
| JNull
| JBool (b : bool)
| JInt (n : Z)
| JStr (s : string)
| JArr (items : list json)
| JObj (fields : list (string * json)).

(** [d.get(key)] on a dict: the first binding of [key]. *)
Fixpoint assoc_get (key : string) (fields : list (string * json)) : option json :=
  match fields with
  | [] => None
  | (k, v) :: rest => if String.eqb k key then Some v else assoc_get key rest
  end.

(** ** Exceptions *)

(** The exception classes this module raises, catches or lets through.
    [Music163BadCode], [Music163BadData] and [CannotConnectApi] come from
    [pycloudmusic.error]; [ClientError] stands for the transport errors of
    the HTTP library; [CancelledError] and [KeyboardInterrupt] derive from
    [BaseException] only. *)
Inductive pyclass : Type :=
| BaseExceptionC
| ExceptionC
| Music163BadCodeC
| Music163BadDataC
| CannotConnectApiC
| KeyErrorC
| TypeErrorC
| AttributeErrorC
| ClientErrorC
| CancelledErrorC
| KeyboardInterruptC.

Definition pyclass_eqb (a b : pyclass) : bool :=
  match a, b with
  | BaseExceptionC, BaseExceptionC | ExceptionC, ExceptionC
  | Music163BadCodeC, Music163BadCodeC | Music163BadDataC, Music163BadDataC
  | CannotConnectApiC, CannotConnectApiC | KeyErrorC, KeyErrorC
  | TypeErrorC, TypeErrorC | AttributeErrorC, AttributeErrorC
  | ClientErrorC, ClientErrorC
  | CancelledErrorC, CancelledErrorC
  | KeyboardInterruptC, KeyboardInterruptC => true
  | _, _ => false
  end.

(** Modelled from the spec: [pycloudmusic/error.py] is not part of the
    sources; its three classes are the typed errors of the specification
    (bad code, bad data, connection exhausted), ordinary exceptions that
    derive from [Exception]. *)
Definition base_of (c : pyclass) : option pyclass :=
  match c with
  | BaseExceptionC => None
  | ExceptionC | CancelledErrorC | KeyboardInterruptC => Some BaseExceptionC
  | Music163BadCodeC | Music163BadDataC | CannotConnectApiC
  | KeyErrorC | TypeErrorC | AttributeErrorC | ClientErrorC => Some ExceptionC
  end.

(** [issubclass(c, d)]; the hierarchy above has depth two. *)
Definition issubclass (c d : pyclass) : bool :=
  pyclass_eqb c d
  || match base_of c with
     | None => false
     | Some b =>
         pyclass_eqb b d
         || match base_of b with
            | None => false
            | Some bb => pyclass_eqb bb d
            end
     end.

(** An exception object.  [CannotConnectApi] is built from an f-string
    that interpolates the reconnection limit, the path and the caught
    error; the three interpolated values are kept apart. *)
Inductive exn : Type :=
| Music163BadCode (data : json)
| Music163BadData (data : json)
| CannotConnectApi (limit : Z) (url : string) (err : exn)
| KeyError (key : string)
| TypeError (msg : string)
| AttributeError (msg : string)
| ClientError (msg : string)
| CancelledError
| KeyboardInterrupt.

Definition class_of (e : exn) : pyclass :=
  match e with
  | Music163BadCode _ => Music163BadCodeC
  | Music163BadData _ => Music163BadDataC
  | CannotConnectApi _ _ _ => CannotConnectApiC
  | KeyError _ => KeyErrorC
  | TypeError _ => TypeErrorC
  | AttributeError _ => AttributeErrorC
  | ClientError _ => ClientErrorC
  | CancelledError => CancelledErrorC
  | KeyboardInterrupt => KeyboardInterruptC
  end.

Definition isinstance (e : exn) (c : pyclass) : bool := issubclass (class_of e) c.

Inductive result (A : Type) : Type :=
| Ok (a : A)
| Raise (e : exn).
Arguments Ok {A} a.
Arguments Raise {A} e.

(** [data[key]] for a string key: a dict without the key raises
    [KeyError]; a list, a string, a number, a boolean or [None] raises
    [TypeError]. *)
Definition getitem (data : json) (key : string) : result json :=
  match data with
  | JObj fields =>
      match assoc_get key fields with
      | Some v => Ok v
      | None => Raise (KeyError key)
      end
  | _ => Raise (TypeError "subscript")
  end.

(** [v == n] for an integer [n]: [True] and [False] are the integers one
    and zero. *)
Definition py_eq_int (v : json) (n : Z) : bool :=
  match v with
  | JInt m => Z.eqb m n
  | JBool b => Z.eqb (if b then 1 else 0) n
  | _ => false
  end.

(** [v in [n1, n2, ...]]. *)
Definition py_in_ints (v : json) (ns : list Z) : bool :=
  existsb (py_eq_int v) ns.

(** ** The expression after [except] *)

(** The value of an expression built from class names, [or] and [not]. *)
Inductive pyval : Type :=
| VClass (c : pyclass)
| VBool (b : bool).

(** A class object is truthy. *)
Definition truthy (v : pyval) : bool :=
  match v with
  | VClass _ => true
  | VBool b => b
  end.

Inductive guard_expr : Type :=
| GName (c : pyclass)
| GOr (a b : guard_expr)
| GNot (a : guard_expr).

(** [a or b] is [a] when [a] is truthy, otherwise [b]; [not a] is a
    boolean. *)
Fixpoint guard_eval (g : guard_expr) : pyval :=
  match g with
  | GName c => VClass c
  | GOr a b => let va := guard_eval a in if truthy va then va else guard_eval b
  | GNot a => VBool (negb (truthy (guard_eval a)))
  end.

(** Whether [except <v> as err] takes the exception [e].  A guard that is
    not a class takes nothing (Python then raises [TypeError] in place of
    handling). *)
Definition handler_catches (v : pyval) (e : exn) : bool :=
  match v with
  | VClass c => isinstance e c
  | VBool _ => false
  end.

(** [except Exception or not Music163BadCode as err] *)
Definition _login_guard : guard_expr :=
  GOr (GName ExceptionC) (GNot (GName Music163BadCodeC)).


(** ** [http.cookies]: morsels and their rendering *)

(** One cookie of a [SimpleCookie].  [str(morsel)] is the header name
    followed by [key=coded_value] and the rendered attributes (Path,
    Max-Age, ...), all joined by a semicolon and a space. *)
Record Morsel : Type := mkMorsel {
  key : string;
  coded_value : string;
  attrs : list string
}.

(** A [SimpleCookie] is a dict from cookie name to morsel, in insertion
    order. *)
Definition SimpleCookie : Type := list (string * Morsel).

Definition dict_values {K V : Type} (d : list (K * V)) : list V := map snd d.

Definition OutputString (m : Morsel) : string :=
  String.concat "; " ((key m ++ "=" ++ coded_value m) :: attrs m).

Definition Morsel_str (m : Morsel) : string :=
  "Set-Cookie: " ++ OutputString m.

(** ** [str] methods *)

Fixpoint str_mem (c : ascii) (chars : string) : bool :=
  match chars with
  | EmptyString => false
  | String d rest => Ascii.eqb c d || str_mem c rest
  end.

(** [s.lstrip(chars)]: drops the leading characters of [s] that occur in
    [chars]. *)
Fixpoint lstrip (chars s : string) : string :=
  match s with
  | EmptyString => EmptyString
  | String c rest => if str_mem c chars then lstrip chars rest else s
  end.

(** [s.split(sep, maxsplit=1)[0]] for a non-empty [sep]: the part of [s]
    before the first occurrence of [sep], all of [s] when there is
    none. *)
Fixpoint split_first (sep s : string) : string :=
  match s with
  | EmptyString => EmptyString
  | String c rest =>
      if String.prefix sep s then EmptyString else String c (split_first sep rest)
  end.

(** ** [LoginMusic163._SimpleCookieToCookieStr] *)

Definition cookie_data_of (item : Morsel) : string :=
  split_first "; " (lstrip "Set-Cookie: " (Morsel_str item)).

Definition _SimpleCookieToCookieStr (cookie : SimpleCookie) : string :=
  fold_left (fun cookie_str item => cookie_str ++ cookie_data_of item ++ "; ")
            (dict_values cookie) "".

(** ** [hashlib.md5] *)

(** The MD5 message digest (RFC 1321) on 32-bit words held in [Z], and the
    hasher object of [hashlib]: [update] feeds bytes to the object,
    [hexdigest] is the digest, in lower-case hexadecimal, of everything
    fed to it since it was created. *)
Module hashlib.

Local Open Scope list_scope.

Definition w32 (x : Z) : Z := x mod 2 ^ 32.

Definition rotl (x c : Z) : Z :=
  w32 (Z.lor (Z.shiftl x c) (Z.shiftr x (32 - c))).

Definition not32 (x : Z) : Z := Z.lxor x 0xffffffff.

Definition K : list Z :=
  [0xd76aa478; 0xe8c7b756; 0x242070db; 0xc1bdceee;
   0xf57c0faf; 0x4787c62a; 0xa8304613; 0xfd469501;
   0x698098d8; 0x8b44f7af; 0xffff5bb1; 0x895cd7be;
   0x6b901122; 0xfd987193; 0xa679438e; 0x49b40821;
   0xf61e2562; 0xc040b340; 0x265e5a51; 0xe9b6c7aa;
   0xd62f105d; 0x02441453; 0xd8a1e681; 0xe7d3fbc8;
   0x21e1cde6; 0xc33707d6; 0xf4d50d87; 0x455a14ed;
   0xa9e3e905; 0xfcefa3f8; 0x676f02d9; 0x8d2a4c8a;
   0xfffa3942; 0x8771f681; 0x6d9d6122; 0xfde5380c;
   0xa4beea44; 0x4bdecfa9; 0xf6bb4b60; 0xbebfbc70;
   0x289b7ec6; 0xeaa127fa; 0xd4ef3085; 0x04881d05;
   0xd9d4d039; 0xe6db99e5; 0x1fa27cf8; 0xc4ac5665;
   0xf4292244; 0x432aff97; 0xab9423a7; 0xfc93a039;
   0x655b59c3; 0x8f0ccc92; 0xffeff47d; 0x85845dd1;
   0x6fa87e4f; 0xfe2ce6e0; 0xa3014314; 0x4e0811a1;
   0xf7537e82; 0xbd3af235; 0x2ad7d2bb; 0xeb86d391].

Definition S : list Z :=
  [7; 12; 17; 22; 7; 12; 17; 22; 7; 12; 17; 22; 7; 12; 17; 22;
   5; 9; 14; 20; 5; 9; 14; 20; 5; 9; 14; 20; 5; 9; 14; 20;
   4; 11; 16; 23; 4; 11; 16; 23; 4; 11; 16; 23; 4; 11; 16; 23;
   6; 10; 15; 21; 6; 10; 15; 21; 6; 10; 15; 21; 6; 10; 15; 21].

Definition bytes_of (s : string) : list Z :=
  map (fun c => Z.of_N (N_of_ascii c)) (list_ascii_of_string s).

(** The message followed by the byte 0x80, zero bytes up to 56 modulo 64,
    and the bit length as eight little-endian bytes. *)
Definition le_bytes (count : nat) (x : Z) : list Z :=
  map (fun i => Z.land (Z.shiftr x (8 * Z.of_nat i)) 0xff) (seq 0 count).

Definition pad (msg : list Z) : list Z :=
  let len := Z.of_nat (List.length msg) in
  let zeros := Z.to_nat ((55 - len) mod 64) in
  msg ++ [0x80] ++ repeat 0 zeros ++ le_bytes 8 (Z.land (8 * len) 0xffffffffffffffff).

Fixpoint le_word (bs : list Z) : Z :=
  match bs with
  | [] => 0
  | b :: rest => b + 256 * le_word rest
  end.

(** The sixteen little-endian words of a 64-byte block. *)
Definition words (block : list Z) : list Z :=
  map (fun i => le_word (firstn 4 (skipn (4 * i) block))) (seq 0 16).

Record state : Type := mkState { sa : Z; sb : Z; sc : Z; sd : Z }.

Definition init : state :=
  mkState 0x67452301 0xefcdab89 0x98badcfe 0x10325476.

Definition step (M : list Z) (st : state) (i : nat) : state :=
  let '(mkState A B C D) := st in
  let zi := Z.of_nat i in
  let '(F, g) :=
    if zi <? 16 then (Z.lor (Z.land B C) (Z.land (not32 B) D), zi)
    else if zi <? 32 then (Z.lor (Z.land D B) (Z.land (not32 D) C), (5 * zi + 1) mod 16)
    else if zi <? 48 then (Z.lxor (Z.lxor B C) D, (3 * zi + 5) mod 16)
    else (Z.lxor C (Z.lor B (not32 D)), (7 * zi) mod 16) in
  let F' := w32 (F + A + nth i K 0 + nth (Z.to_nat g) M 0) in
  mkState D (w32 (B + rotl F' (nth i S 0))) B C.

Definition compress (st : state) (block : list Z) : state :=
  let r := fold_left (step (words block)) (seq 0 64) st in
  mkState (w32 (sa st + sa r)) (w32 (sb st + sb r))
          (w32 (sc st + sc r)) (w32 (sd st + sd r)).

Fixpoint blocks (count : nat) (bs : list Z) : list (list Z) :=
  match count with
  | O => []
  | Datatypes.S n => firstn 64 bs :: blocks n (skipn 64 bs)
  end.

Definition digest (msg : list Z) : list Z :=
  let padded := pad msg in
  let st := fold_left compress (blocks (List.length padded / 64) padded) init in
  le_bytes 4 (sa st) ++ le_bytes 4 (sb st) ++ le_bytes 4 (sc st) ++ le_bytes 4 (sd st).

Definition hex_digit (x : Z) : ascii :=
  nth (Z.to_nat x) (list_ascii_of_string "0123456789abcdef") "0"%char.

Definition hex (bs : list Z) : string :=
  string_of_list_ascii
    (flat_map (fun b => [hex_digit (b / 16); hex_digit (b mod 16)]) bs).

(** The hasher object: the bytes it has been fed. *)
Definition md5_object : Type := string.

(** [hashlib.md5()] *)
Definition md5 : md5_object := "".

(** [h.update(data)] *)
Definition update (h : md5_object) (data : string) : md5_object := (h ++ data)%string.

(** [h.hexdigest()] *)
Definition hexdigest (h : md5_object) : string := hex (digest (bytes_of h)).

End hashlib.

(** ** The world: requests sent and sleeps taken *)

(** One [session.post(url, headers=..., data=...)] of [_login]. *)
Record request : Type := mkRequest {
  req_url : string;
  req_headers : list (string * string);
  req_data : json
}.

Inductive event : Type :=
| Post (r : request)
| ApiPost (path : string) (cookie : option string) (data : json)
| Sleep (secs : Z).

(** The trace, newest event first. *)
Definition world : Type := list event.

Definition is_Post (e : event) : bool :=
  match e with Post _ => true | _ => false end.
Definition is_ApiPost (e : event) : bool :=
  match e with ApiPost _ _ _ => true | _ => false end.
Definition is_Sleep (e : event) : bool :=
  match e with Sleep _ => true | _ => false end.

Definition posts (w : world) : nat := List.length (filter is_Post w).
Definition api_posts (w : world) : nat := List.length (filter is_ApiPost w).
Definition sleeps (w : world) : nat := List.length (filter is_Sleep w).

(** What one attempt of [_login] meets: [_get_session], [session.post] or
    [req.json] raises, or the remote answers with a parsed body and the
    cookies of the response. *)
Inductive outcome : Type :=
| Fails (e : exn)
| Responds (body : json) (cookies : SimpleCookie).

(** A computation over the world that may raise. *)
Definition M (A : Type) : Type := world -> result A * world.

Definition ret {A : Type} (a : A) : M A := fun w => (Ok a, w).
Definition raise {A : Type} (e : exn) : M A := fun w => (Raise e, w).
Definition lift {A : Type} (r : result A) : M A := fun w => (r, w).
Definition bind {A B : Type} (m : M A) (k : A -> M B) : M B :=
  fun w =>
    match m w with
    | (Ok a, w') => k a w'
    | (Raise e, w') => (Raise e, w')
    end.

Notation "x <- m ;; k" := (bind m (fun x => k))
  (at level 61, m at next level, right associativity).

(** [d[k] = v] on a dict. *)
Fixpoint dict_set {V : Type} (k : string) (v : V) (d : list (string * V))
  : list (string * V) :=
  match d with
  | [] => [(k, v)]
  | (k', v') :: rest =>
      if String.eqb k' k then (k', v) :: rest else (k', v') :: dict_set k v rest
  end.

(** Truth value of a cookie attribute: [None] and the empty string are
    falsy. *)
Definition cookie_truthy (c : option string) : bool :=
  match c with
  | None => false
  | Some s => negb (String.eqb s "")
  end.

(** ** The objects *)

Record Music163Api : Type := mkMusic163Api { api_cookie : option string }.

Record LoginMusic163 : Type := mkLoginMusic163 {
  cookie : option string;
  __hl : hashlib.md5_object
}.

(** [LoginMusic163(cookie)] *)
Definition LoginMusic163_init (cookie : option string) : LoginMusic163 :=
  mkLoginMusic163 cookie hashlib.md5.

Definition set_cookie (self : LoginMusic163) (c : option string) : LoginMusic163 :=
  mkLoginMusic163 c (__hl self).

(** ** [LoginMusic163._md5] *)

(** Updates the hasher of the instance and returns its digest, with the
    instance after the call. *)
Definition _md5 (self : LoginMusic163) (str_ : string) : string * LoginMusic163 :=
  let hl := hashlib.update (__hl self) str_ in
  (hashlib.hexdigest hl, mkLoginMusic163 (cookie self) hl).

(** Modelled from the spec: the class [Music163BadCode] is not part of the
    sources; its [code] attribute is the numeric code of the error
    envelope, the [code] field of the body it was built from. *)
Definition err_code (e : exn) : json :=
  match e with
  | Music163BadCode data =>
      match getitem data "code" with
      | Ok v => v
      | Raise _ => JNull
      end
  | _ => JNull
  end.

(** ** [LoginMusic163]: the login flows *)

Section Login.

(** [pycloudmusic.RECONNECTION], the process-wide reconnection limit. *)
Variable RECONNECTION : Z.

(** [dict(_get_basic_headers())] *)
Variable basic_headers : list (string * string).

(** What the k-th attempt of the process meets, given the request it
    sends. *)
Variable remote : nat -> request -> outcome.

(** The request of one attempt: the basic headers, with the cookie of the
    instance when it has one. *)
Definition _login_request (self : LoginMusic163) (url : string) (data : json)
  : request :=
  let headers :=
    match cookie self with
    | Some c => if cookie_truthy (Some c)
                then dict_set "cookie" c basic_headers else basic_headers
    | None => basic_headers
    end in
  mkRequest ("https://music.163.com" ++ url) headers data.

(** The body of the [try] block of [_login].  Besides its result it
    returns the local [data], which the block rebinds to the parsed body
    once [req.json] has returned. *)
Definition _login_try (self : LoginMusic163) (url : string) (data : json)
  (w : world) : result string * json * world :=
  let r := _login_request self url data in
  let w' := Post r :: w in
  match remote (posts w) r with
  | Fails e => (Raise e, data, w')
  | Responds body cookies =>
      match getitem body "code" with
      | Raise e => (Raise e, body, w')
      | Ok code =>
          if negb (py_in_ints code [200; 803])
          then (Raise (Music163BadCode body), body, w')
          else (Ok (_SimpleCookieToCookieStr cookies), body, w')
      end
  end.

Equations? _login (self : LoginMusic163) (url : string) (data : json)
  (reconnection_count : Z) (w : world) : result string * world
  by wf (Z.to_nat (RECONNECTION + 1 - reconnection_count)) lt :=
_login self url data reconnection_count w with _login_try self url data w := {
  | (Ok token, _, w') => (Ok token, w')
  | (Raise err, data', w') with handler_catches (guard_eval _login_guard) err := {
    | false => (Raise err, w')
    | true with Z_gt_dec (reconnection_count + 1) RECONNECTION := {
      | left _ => (Raise (CannotConnectApi RECONNECTION url err), w')
      | right _ => _login self url data' (reconnection_count + 1) w' } } }.
Proof. lia. Qed.

(** [email]: the dict literal is evaluated first, so the hasher is
    updated whether or not the login succeeds; [self.cookie] is assigned
    only when [_login] returns. *)
Definition email (self : LoginMusic163) (email_ password : string) (w : world)
  : result (option string * Music163Api) * LoginMusic163 * world :=
  let '(hashed, self1) := _md5 self password in
  match _login self1 "/api/login"
          (JObj [("username", JStr email_); ("password", JStr hashed);
                 ("rememberLogin", JStr "true")]) 0 w with
  | (Ok token, w') =>
      let self2 := set_cookie self1 (Some token) in
      (Ok (cookie self2, mkMusic163Api (cookie self2)), self2, w')
  | (Raise e, w') => (Raise e, self1, w')
  end.

(** [cellphone], for a password or captcha given as a string. *)
Definition cellphone (self : LoginMusic163) (phone : json) (password : string)
  (captcha : bool) (country_code : json) (w : world)
  : result (option string * Music163Api) * LoginMusic163 * world :=
  let '(password1, self1) :=
    if negb captcha then _md5 self password else (password, self) in
  match _login self1 "/api/login/cellphone"
          (JObj [("phone", phone); ("countrycode", country_code);
                 ((if captcha then "captcha" else "password"), JStr password1);
                 ("rememberLogin", JStr "true")]) 0 w with
  | (Ok token, w') =>
      let self2 := set_cookie self1 (Some token) in
      (Ok (cookie self2, mkMusic163Api (cookie self2)), self2, w')
  | (Raise e, w') => (Raise e, self1, w')
  end.

Definition qr_check (self : LoginMusic163) (qr_key : string) : M string :=
  _login self "/api/login/qrcode/client/login"
         (JObj [("key", JStr qr_key); ("type", JInt 1)]) 0.

(** [qr]: the [while True] loop, one iteration per unit of [fuel];
    [None] when the fuel runs out before the loop returns or raises. *)
Fixpoint qr (fuel : nat) (self : LoginMusic163) (qr_key : string)
  (time_sleep : Z) (w : world)
  : option (result (option string * Music163Api) * LoginMusic163 * world) :=
  match fuel with
  | O => None
  | S fuel' =>
      match qr_check self qr_key w with
      | (Ok token, w1) =>
          let self1 := set_cookie self (Some token) in
          if cookie_truthy (cookie self1)
          then Some (Ok (cookie self1, mkMusic163Api (cookie self1)), self1, w1)
          else qr fuel' self1 qr_key time_sleep (Sleep time_sleep :: w1)
      | (Raise err, w1) =>
          if isinstance err Music163BadCodeC then
            if py_in_ints (err_code err) [801; 802]
            then qr fuel' self qr_key time_sleep (Sleep time_sleep :: w1)
            else if py_eq_int (err_code err) 800
            then Some (Ok (cookie self, mkMusic163Api (cookie self)), self, w1)
            else qr fuel' self qr_key time_sleep (Sleep time_sleep :: w1)
          else Some (Raise err, self, w1)
      end
  end.

End Login.

(** ** [Music163Api]: the API client *)

(** Modelled from the spec: the classes of [pycloudmusic.object.music163]
    are not part of the sources.  Each is a read-only view of one JSON
    payload, built by a pure mapping from the payload and the cookie: it
    is the pair of the two.  A [Music] is the view of one song, not a
    collection. *)
Record My : Type := mkMy { my_data : json; my_cookie : option string }.
Record Music : Type := mkMusic { music_data : json; music_cookie : option string }.
Record PlayList : Type := mkPlayList { playlist_data : json; playlist_cookie : option string }.

(** What [music] returns: one [Music], or a generator of them. *)
Inductive music_return : Type :=
| OneMusic (m : Music)
| MusicGenerator (ms : list Music).

(** [list(x)] of what [music] returned: the items of the generator; one
    [Music] is not iterable. *)
Definition py_list (x : music_return) : result (list Music) :=
  match x with
  | OneMusic _ => Raise (TypeError "'Music' object is not iterable")
  | MusicGenerator ms => Ok ms
  end.

(** A value used as a list: a JSON array.  A song list or an id list that
    is not an array is reported as [TypeError]. *)
Definition as_list (v : json) : result (list json) :=
  match v with
  | JArr items => Ok items
  | _ => Raise (TypeError "not a list")
  end.

(** [[f(x) for x in xs]] where [f] may raise. *)
Fixpoint comprehension {A B : Type} (f : A -> result B) (xs : list A)
  : result (list B) :=
  match xs with
  | [] => Ok []
  | x :: rest =>
      match f x with
      | Raise e => Raise e
      | Ok y =>
          match comprehension f rest with
          | Raise e => Raise e
          | Ok ys => Ok (y :: ys)
          end
      end
  end.

(** [song.get("id")] *)
Definition song_get_id (song : json) : result json :=
  match song with
  | JObj fields =>
      Ok (match assoc_get "id" fields with Some v => v | None => JNull end)
  | _ => Raise (AttributeError "get")
  end.

(** [xs[i: j]] for indices that are not negative. *)
Definition py_slice {A : Type} (xs : list A) (i j : nat) : list A :=
  firstn (j - i) (skipn i xs).

(** [range(0, stop, step)] for a positive [step]. *)
Definition py_range0 (stop step : nat) : list nat :=
  map (fun k => (k * step)%nat) (seq 0 ((stop + step - 1) / step)).

(** [playlist_data["tracks"] += music_list] *)
Definition tracks_iadd (playlist_data : json) (music_list : list json)
  : result json :=
  match getitem playlist_data "tracks", playlist_data with
  | Raise e, _ => Raise e
  | Ok (JArr tracks), JObj fields =>
      Ok (JObj (dict_set "tracks" (JArr (tracks ++ music_list)%list) fields))
  | Ok _, _ => Raise (TypeError "unsupported operand")
  end.

Section Api.

(** [pycloudmusic.ahttp._post] is not part of the sources: what its k-th
    call returns or raises, given the path, the cookie and the form data,
    is an oracle. *)
Variable _post_answer : nat -> string -> option string -> json -> result json.

(** [pycloudmusic._id_format(ids, dict_str=...)], not part of the sources
    either. *)
Variable _id_format : json -> bool -> json.

Definition _post (path : string) (cookie : option string) (data : json) : M json :=
  fun w => (_post_answer (api_posts w) path cookie data,
            ApiPost path cookie data :: w).

Definition my (self : Music163Api) : M My :=
  data <- _post "/api/w/nuser/account/get" (api_cookie self) JNull ;;
  profile <- lift (getitem data "profile") ;;
  match profile with
  | JNull => raise (Music163BadData data)
  | _ => ret (mkMy data (api_cookie self))
  end.

Definition music (self : Music163Api) (ids : json) : M music_return :=
  data <- _post "/api/v3/song/detail" (api_cookie self)
                (JObj [("c", _id_format ids true)]) ;;
  songs <- lift (getitem data "songs") ;;
  songs <- lift (as_list songs) ;;
  if Nat.eqb (List.length songs) 1
  then ret (OneMusic (mkMusic (nth 0 songs JNull) (api_cookie self)))
  else ret (MusicGenerator
              (map (fun music_data => mkMusic music_data (api_cookie self)) songs)).

(** The [for i in range(0, len(trackIds), 1000)] loop of [playlist]. *)
Fixpoint playlist_loop (self : Music163Api) (indices : list nat)
  (trackIds : list json) (playlist_data : json) : M json :=
  match indices with
  | [] => ret playlist_data
  | i :: rest =>
      fetched <- music self (JArr (py_slice trackIds i (i + 1000))) ;;
      music_list <- lift (py_list fetched) ;;
      playlist_data' <- lift (tracks_iadd playlist_data (map music_data music_list)) ;;
      playlist_loop self rest trackIds playlist_data'
  end.

Definition playlist (self : Music163Api) (id_ : json) : M PlayList :=
  data <- _post "/api/v6/playlist/detail" (api_cookie self)
                (JObj [("id", id_); ("n", JInt 100000)]) ;;
  playlist_data <- lift (getitem data "playlist") ;;
  ids <- lift (getitem playlist_data "trackIds") ;;
  ids <- lift (as_list ids) ;;
  ids <- lift (comprehension song_get_id ids) ;;
  let trackIds := skipn 1000 ids in
  match trackIds with
  | [] => ret (mkPlayList playlist_data (api_cookie self))
  | _ :: _ =>
      playlist_data' <- playlist_loop self (py_range0 (List.length trackIds) 1000)
                                      trackIds playlist_data ;;
      ret (mkPlayList playlist_data' (api_cookie self))
  end.

End Api.

(** * Observations and scripted remotes *)

(** The rendered attributes of a morsel, each behind its separator. *)
Definition attrs_suffix (m : Morsel) : string :=
  String.concat "" (map (fun a => "; " ++ a) (attrs m)).

(** The attempt meets an error that the handler takes: an exception that
    is an instance of [Exception], or a body whose [code] is missing or
    outside the accepted set. *)
Definition attempt_fails (o : outcome) : bool :=
  match o with
  | Fails e => isinstance e ExceptionC
  | Responds body _ =>
      match getitem body "code" with
      | Ok code => negb (py_in_ints code [200; 803])
      | Raise _ => true
      end
  end.

(** The exception the [try] block raises at a failed attempt. *)
Definition failure_of (o : outcome) : exn :=
  match o with
  | Fails e => e
  | Responds body _ =>
      match getitem body "code" with
      | Ok _ => Music163BadCode body
      | Raise e => e
      end
  end.

(** A remote that answers every request with the same code and no
    cookie. *)
Definition always_code (code : Z) : nat -> request -> outcome :=
  fun _ _ => Responds (JObj [("code", JInt code)]) [].

(** The remote of the scripted QR statuses 801, 800: waiting at the first
    request, expired from then on. *)
Definition waiting_then_expired : nat -> request -> outcome :=
  fun k _ =>
    match k with
    | O => Responds (JObj [("code", JInt 801)]) []
    | S _ => Responds (JObj [("code", JInt 800)]) []
    end.

(** The remote of the scripted QR statuses 801, 801, 802, 803: the fourth
    request is answered with the session cookie. *)
Definition scanned_at_fourth : nat -> request -> outcome :=
  fun k _ =>
    match k with
    | 0%nat | 1%nat => Responds (JObj [("code", JInt 801)]) []
    | 2%nat => Responds (JObj [("code", JInt 802)]) []
    | _ => Responds (JObj [("code", JInt 803)])
                    [("MUSIC_U", mkMorsel "MUSIC_U" "00F1" ["Path=/"])]
    end.

(** A scripted server for a playlist of [n] tracks with the ids 0, ...,
    [n - 1]: the playlist endpoint returns every track id and the songs of
    the first thousand; the song-detail endpoint returns the songs of the
    ids it is asked for, in their order.  The ids are sent as they are
    ([_id_format] is the identity here). *)
Definition song_of (id_ : json) : json := JObj [("id", id_); ("name", JStr "song")].

Definition track_ids (n : nat) : list json := map (fun i => JInt (Z.of_nat i)) (seq 0 n).

Definition playlist_server (n : nat)
  : nat -> string -> option string -> json -> result json :=
  fun _ path _ data =>
    if String.eqb path "/api/v6/playlist/detail" then
      Ok (JObj [("code", JInt 200);
                ("playlist",
                 JObj [("trackIds", JArr (map (fun i => JObj [("id", i)]) (track_ids n)));
                       ("tracks", JArr (map song_of (firstn 1000 (track_ids n))))])])
    else
      match getitem data "c" with
      | Ok (JArr ids) => Ok (JObj [("code", JInt 200); ("songs", JArr (map song_of ids))])
      | _ => Raise (ClientError "bad request")
      end.

Definition ids_as_sent : json -> bool -> json := fun ids _ => ids.

(** The song-detail requests of a trace, oldest first: the ids of each. *)
Definition detail_batches (w : world) : list json :=
  flat_map (fun e =>
              match e with
              | ApiPost "/api/v3/song/detail" _ data =>
                  match getitem data "c" with Ok ids => [ids] | Raise _ => [] end
              | _ => []
              end) (rev w).

(** The track collection of a fetched playlist. *)
Definition tracks_of (p : result PlayList) : result json :=
  match p with
  | Ok pl => getitem (playlist_data pl) "tracks"
  | Raise e => Raise e
  end.

(** The passwords of the login requests of a trace, newest first. *)
Definition posted_passwords (w : world) : list json :=
  flat_map (fun e =>
              match e with
              | Post r =>
                  match getitem (req_data r) "password" with
                  | Ok v => [v]
                  | Raise _ => []
                  end
              | _ => []
              end) w.

(** * The rest of the login object, and the captcha demo *)

(** [s] holds an occurrence of [sep]. *)
Fixpoint occurs (sep s : string) : bool :=
  match s with
  | EmptyString => false
  | String _ rest => String.prefix sep s || occurs sep rest
  end.

(** A cookie that [_SimpleCookieToCookieStr] leaves alone: its name starts
    with a character outside the stripped set, and name and value hold no
    semicolon followed by a space. *)
Definition ordinary (m : Morsel) : bool :=
  match key m with
  | EmptyString => false
  | String c _ => negb (str_mem c "Set-Cookie: ")
  end
  && negb (occurs "; " (key m ++ "=" ++ coded_value m)).

(** The calls [self._md5(s)] for the inputs [s] of a list, in order: the
    digests returned and the instance after the last call. *)
Fixpoint _md5_calls (self : LoginMusic163) (inputs : list string)
  : list string * LoginMusic163 :=
  match inputs with
  | [] => ([], self)
  | s :: rest =>
      let '(digest, self1) := _md5 self s in
      let '(digests, self2) := _md5_calls self1 rest in
      (digest :: digests, self2)
  end.

(** A request of [_login] for the path [url] on the instance [self]: the
    address and the headers are fixed, the form data is not. *)
Definition same_target (h : list (string * string)) (self : LoginMusic163)
  (url : string) (e : event) : Prop :=
  exists d : json, e = Post (_login_request h self url d).

(** The local [data] of [_login] after a failed attempt: the parsed body
    when the attempt got one, the form data as it was otherwise. *)
Definition rebound_data (o : outcome) (data : json) : json :=
  match o with
  | Fails _ => data
  | Responds body _ => body
  end.

(** The attempt is answered with an accepted code and no cookie. *)
Definition accepted_without_cookie (o : outcome) : bool :=
  match o with
  | Responds _ [] => negb (attempt_fails o)
  | _ => false
  end.

(** The remote that answers the first [m] requests with the code 803 and
    no cookie, and the later ones with the code 803 and the session
    cookie. *)
Definition cookie_after (m : nat) : nat -> request -> outcome :=
  fun k _ =>
    if Nat.ltb k m then Responds (JObj [("code", JInt 803)]) []
    else Responds (JObj [("code", JInt 803)])
                  [("MUSIC_U", mkMorsel "MUSIC_U" "00F1" ["Path=/"])].

(** The attempt fails, whatever it raises: it raises some exception, or it
    gets a body whose [code] is missing or outside the accepted set. *)
Definition attempt_raises_or_rejects (o : outcome) : bool :=
  match o with
  | Fails _ => true
  | Responds body _ =>
      match getitem body "code" with
      | Ok code => negb (py_in_ints code [200; 803])
      | Raise _ => true
      end
  end.

Section LoginPassThrough.

Variable _post_answer : nat -> string -> option string -> json -> result json.

(** [send_captcha]: no cookie is passed to [_post]. *)
Definition send_captcha (self : LoginMusic163) (phone country_code : json) : M json :=
  _post _post_answer "/api/sms/captcha/sent" None
        (JObj [("ctcode", country_code); ("cellphone", phone)]).

Definition login_status (self : LoginMusic163) : M json :=
  _post _post_answer "/api/w/nuser/account/get" (cookie self) JNull.

Definition login_refresh (self : LoginMusic163) : M json :=
  _post _post_answer "/api/login/token/refresh" (cookie self) JNull.

Definition logout (self : LoginMusic163) : M json :=
  _post _post_answer "/api/logout" (cookie self) JNull.

End LoginPassThrough.

(** ** [demo/login/captcha.py] *)

(** The objects the demo handles and prints. *)
Inductive pyobj : Type :=
| PJson (v : json)
| PCookie (c : option string)
| PApi (api : Music163Api)
| PMy (m : My)
| PText (s : string).

(** What the demo does at the terminal, newest first: a call of [input]
    with its prompt, a call of [print] with its arguments. *)
Inductive console_event : Type :=
| Input (prompt : string)
| Print (items : list pyobj).

(** How [main] ends: it returns, or an exception leaves it (the demo
    catches nothing).  [ValueError] is the error of an unpacking with the
    wrong number of values. *)
Inductive demo_end : Type :=
| Returned
| Uncaught (e : exn)
| UncaughtValueError (msg : string).

(** [a, b, c = t] for a tuple [t]. *)
Definition unpack3 (t : list pyobj) : option (pyobj * pyobj * pyobj) :=
  match t with
  | [a; b; c] => Some (a, b, c)
  | _ => None
  end.

(** [s * n] for a string. *)
Fixpoint str_mul (s : string) (n : nat) : string :=
  match n with
  | O => ""
  | S n' => s ++ str_mul s n'
  end.

Section Demo.

Variable RECONNECTION : Z.
Variable basic_headers : list (string * string).
Variable remote : nat -> request -> outcome.
Variable _post_answer : nat -> string -> option string -> json -> result json.

(** [main], for the two lines the user types at the prompts.
    [LoginMusic163] is the class of [pycloudmusic/music163.py]; the tuple
    [cellphone] returns has two items. *)
Definition main (typed_phone typed_code : string) (w : world)
  : demo_end * list console_event * world :=
  let login := LoginMusic163_init None in
  let console1 := [Input "you login phone: "] in
  match send_captcha _post_answer login (JStr typed_phone) (JStr "86") w with
  | (Raise e, w1) => (Uncaught e, console1, w1)
  | (Ok sent, w1) =>
      let console2 := Input "you captcha code: " :: Print [PJson sent] :: console1 in
      match cellphone RECONNECTION basic_headers remote login (JStr typed_phone)
                      typed_code true (JStr "86") w1 with
      | (Raise e, _, w2) => (Uncaught e, console2, w2)
      | (Ok (cookie1, api), _, w2) =>
          match unpack3 [PCookie cookie1; PApi api] with
          | None =>
              (UncaughtValueError "not enough values to unpack (expected 3, got 2)",
               console2, w2)
          | Some (code, cookie2, musicapi) =>
              let console3 :=
                Print [PText (str_mul "=" 60)] :: Print [code; cookie2; musicapi]
                :: Print [PText (str_mul "=" 60)] :: console2 in
              match musicapi with
              | PApi api' =>
                  match my _post_answer api' w2 with
                  | (Raise e, w3) => (Uncaught e, console3, w3)
                  | (Ok me, w3) => (Returned, Print [PMy me] :: console3, w3)
                  end
              | _ => (Uncaught (AttributeError "my"), console3, w2)
              end
          end
      end
  end.

End Demo.

(** * Properties *)

(** ** Strings *)

Lemma append_assoc (a b c : string) : (a ++ b) ++ c = a ++ (b ++ c).
Proof. induction a as [|x a IH]; simpl; [reflexivity | now rewrite IH]. Qed.

Lemma append_nil_r (a : string) : a ++ "" = a.
Proof. induction a as [|x a IH]; simpl; [reflexivity | now rewrite IH]. Qed.

Lemma concat_sep_cons (x : string) (rest : list string) :
  String.concat "; " (x :: rest)
  = x ++ String.concat "" (map (fun a => "; " ++ a) rest).
Proof.
  revert x; induction rest as [|y rest IH]; intros x.
  - simpl. now rewrite append_nil_r.
  - change (String.concat "; " (x :: y :: rest))
      with (x ++ "; " ++ String.concat "; " (y :: rest)).
    rewrite IH. simpl map.
    destruct rest as [|z rest]; simpl.
    + now rewrite !append_nil_r.
    + reflexivity.
Qed.

(** Stripping stops at a character outside the set. *)
Lemma lstrip_stops (chars s : string) (c : ascii) (rest : string) :
  str_mem c chars = false ->
  lstrip chars (s ++ String c rest) = lstrip chars s ++ String c rest.
Proof.
  intros Hc. induction s as [|x s IH]; simpl.
  - now rewrite Hc.
  - destruct (str_mem x chars); [exact IH | reflexivity].
Qed.

Lemma Morsel_str_lstrip (m : Morsel) :
  lstrip "Set-Cookie: " (Morsel_str m)
  = lstrip "Set-Cookie: " (key m) ++ "=" ++ coded_value m ++ attrs_suffix m.
Proof.
  unfold Morsel_str, OutputString, attrs_suffix.
  rewrite concat_sep_cons.
  change (lstrip "Set-Cookie: " ("Set-Cookie: " ++ ?x))
    with (lstrip "Set-Cookie: " x).
  rewrite !append_assoc.
  change ("=" ++ ?x) with (String "="%char x).
  apply lstrip_stops. reflexivity.
Qed.

Lemma fold_cookie_str (items : list Morsel) (acc : string) :
  fold_left (fun cookie_str item => cookie_str ++ cookie_data_of item ++ "; ")
            items acc
  = acc ++ String.concat "" (map (fun item => cookie_data_of item ++ "; ") items).
Proof.
  revert acc; induction items as [|m items IH]; intros acc; simpl.
  - now rewrite append_nil_r.
  - rewrite IH, append_assoc.
    destruct items as [|m' items]; simpl.
    + now rewrite !append_nil_r.
    + now rewrite !append_assoc.
Qed.

Lemma concat_fragments (f : Morsel -> string) (m : Morsel) (ms : list Morsel) :
  String.concat "" (map (fun item => f item ++ "; ") (m :: ms))
  = String.concat "; " (map f (m :: ms)) ++ "; ".
Proof.
  revert m; induction ms as [|m' ms IH]; intros m.
  - reflexivity.
  - change (String.concat "" (map (fun item => f item ++ "; ") (m :: m' :: ms)))
      with ((f m ++ "; ") ++ "" ++
            String.concat "" (map (fun item => f item ++ "; ") (m' :: ms))).
    change (String.concat "; " (map f (m :: m' :: ms)))
      with (f m ++ "; " ++ String.concat "; " (map f (m' :: ms))).
    rewrite IH. simpl. now rewrite !append_assoc.
Qed.

(** ** The session token *)

(** C10. [_SimpleCookieToCookieStr] cleans each cookie with
    [lstrip("Set-Cookie: ")], which drops every leading character of the
    set and not the literal prefix: the header is dropped and so are the
    leading characters of the cookie name that belong to the set, up to
    the first character outside it (the equals sign at the latest); a
    cookie named token is emitted as n=...; the token of no cookie is
    empty, and the token of some cookies is their fragments joined by a
    semicolon and a space, with a trailing semicolon and space. *)
Theorem SimpleCookieToCookieStr_strips_character_set :
  (forall (c : ascii) (s : string),
      lstrip "Set-Cookie: " (String c s)
      = if str_mem c "Set-Cookie: " then lstrip "Set-Cookie: " s else String c s)
  /\ (forall m : Morsel,
      cookie_data_of m
      = split_first "; "
          (lstrip "Set-Cookie: " (key m) ++ "=" ++ coded_value m ++ attrs_suffix m))
  /\ (forall (v : string) (rendered : list string),
      cookie_data_of (mkMorsel "token" v rendered)
      = split_first "; " ("n=" ++ v ++ attrs_suffix (mkMorsel "token" v rendered)))
  /\ _SimpleCookieToCookieStr
       [("token", mkMorsel "token" "abc" ["Path=/"; "HttpOnly"]);
        ("MUSIC_U", mkMorsel "MUSIC_U" "00F1" ["Max-Age=1296000"])]
     = "n=abc; MUSIC_U=00F1; "
  /\ _SimpleCookieToCookieStr [] = ""
  /\ (forall (name : string) (m : Morsel) (cookie : SimpleCookie),
      _SimpleCookieToCookieStr ((name, m) :: cookie)
      = String.concat "; " (map cookie_data_of (m :: dict_values cookie)) ++ "; ").
Proof.
  split; [|split; [|split; [|split; [|split]]]].
  - intros c s. reflexivity.
  - intros m. unfold cookie_data_of. now rewrite Morsel_str_lstrip.
  - intros v rendered. unfold cookie_data_of. now rewrite Morsel_str_lstrip.
  - reflexivity.
  - reflexivity.
  - intros name m cookie. unfold _SimpleCookieToCookieStr.
    rewrite fold_cookie_str. simpl dict_values. simpl append.
    apply concat_fragments.
Qed.

(** ** The retry guard *)

(** One unfolding of [_login], with the guard read as [except Exception]. *)
Lemma _login_step (R : Z) (h : list (string * string))
  (rem : nat -> request -> outcome) (self : LoginMusic163) (url : string)
  (data : json) (count : Z) (w : world) :
  _login R h rem self url data count w =
  match _login_try h rem self url data w with
  | (Ok token, _, w') => (Ok token, w')
  | (Raise err, data', w') =>
      if isinstance err ExceptionC then
        if count + 1 >? R then (Raise (CannotConnectApi R url err), w')
        else _login R h rem self url data' (count + 1) w'
      else (Raise err, w')
  end.
Proof.
  simp _login.
  destruct (_login_try h rem self url data w) as [[[token|err] data'] w']; simpl.
  - reflexivity.
  - change (handler_catches (guard_eval _login_guard) err)
      with (isinstance err ExceptionC).
    destruct (isinstance err ExceptionC); simpl; [|reflexivity].
    destruct (Z_gt_dec (count + 1) R) as [Hgt|Hle]; simpl.
    + apply Z.gtb_gt in Hgt. now rewrite Hgt.
    + destruct (count + 1 >? R) eqn:E; [|reflexivity].
      apply Z.gtb_gt in E. contradiction.
Qed.


(** ** Attempts that fail *)

Lemma getitem_raises_Exception (data : json) (k : string) (e : exn) :
  getitem data k = Raise e -> isinstance e ExceptionC = true.
Proof.
  unfold getitem. destruct data; try (intros [= <-]; reflexivity).
  destruct (assoc_get k fields); intros [= <-]. reflexivity.
Qed.

Lemma _login_try_fails (h : list (string * string))
  (rem : nat -> request -> outcome) (self : LoginMusic163) (url : string)
  (data : json) (w : world) :
  attempt_fails (rem (posts w) (_login_request h self url data)) = true ->
  exists data',
    _login_try h rem self url data w
    = (Raise (failure_of (rem (posts w) (_login_request h self url data))),
       data', Post (_login_request h self url data) :: w)
    /\ isinstance (failure_of (rem (posts w) (_login_request h self url data)))
                  ExceptionC = true.
Proof.
  unfold _login_try, attempt_fails, failure_of.
  destruct (rem (posts w) (_login_request h self url data)) as [e|body cookies].
  - intros He. exists data. now split.
  - destruct (getitem body "code") as [code|e] eqn:Hcode.
    + intros Hc. rewrite Hc. exists body. now split.
    + intros _. exists body. split; [reflexivity|].
      eapply getitem_raises_Exception; eauto.
Qed.

Lemma posts_Post (r : request) (w : world) : posts (Post r :: w) = S (posts w).
Proof. reflexivity. Qed.

Lemma sleeps_Post (r : request) (w : world) : sleeps (Post r :: w) = sleeps w.
Proof. reflexivity. Qed.

(** When each of the next [S n] attempts fails, with [n] the number of
    retries the counter still allows, [_login] makes exactly those
    attempts, takes no sleep, and raises [CannotConnectApi] with the limit,
    the path and the failure of the last attempt. *)
Lemma _login_exhausts (R : Z) (h : list (string * string))
  (rem : nat -> request -> outcome) (self : LoginMusic163) (url : string)
  (n : nat) :
  forall (data : json) (count : Z) (w : world),
    n = Z.to_nat (R - count) ->
    (forall (k : nat) (r : request),
        (posts w <= k < posts w + S n)%nat -> attempt_fails (rem k r) = true) ->
    exists (r_last : request) (w_mid : world),
      _login R h rem self url data count w
      = (Raise (CannotConnectApi R url (failure_of (rem (posts w_mid) r_last))),
         Post r_last :: w_mid)
      /\ posts w_mid = (posts w + n)%nat
      /\ sleeps w_mid = sleeps w
      /\ req_url r_last = "https://music.163.com" ++ url.
Proof.
  induction n as [|n IH]; intros data count w Hn Hfail.
  - rewrite _login_step.
    destruct (_login_try_fails h rem self url data w) as [data' [Htry Hexc]].
    { apply Hfail. lia. }
    rewrite Htry, Hexc.
    assert (Hgt : (count + 1 >? R) = true) by (apply Z.gtb_gt; lia).
    rewrite Hgt.
    exists (_login_request h self url data), w.
    split; [reflexivity|]. split; [lia|]. split; reflexivity.
  - rewrite _login_step.
    destruct (_login_try_fails h rem self url data w) as [data' [Htry Hexc]].
    { apply Hfail. lia. }
    rewrite Htry, Hexc.
    assert (Hle : (count + 1 >? R) = false).
    { destruct (count + 1 >? R) eqn:E; [|reflexivity].
      apply Z.gtb_gt in E. lia. }
    rewrite Hle.
    destruct (IH data' (count + 1) (Post (_login_request h self url data) :: w))
      as [r_last [w_mid [Heq [Hp [Hs Hu]]]]].
    { lia. }
    { intros k r Hk. apply Hfail. rewrite posts_Post in Hk. lia. }
    exists r_last, w_mid. split; [exact Heq|].
    rewrite posts_Post in Hp. rewrite sleeps_Post in Hs.
    split; [lia|]. split; assumption.
Qed.

(** While the attempts fail and the limit allows, the call goes on as the
    recursive call whose counter is the number of attempts made. *)
Lemma _login_reaches_counter (R : Z) (h : list (string * string))
  (rem : nat -> request -> outcome) (self : LoginMusic163) (url : string)
  (n : nat) :
  forall (data : json) (w : world),
    Z.of_nat n <= R ->
    (forall (k : nat) (r : request),
        (posts w <= k < posts w + n)%nat -> attempt_fails (rem k r) = true) ->
    exists (data_n : json) (w_n : world),
      _login R h rem self url data 0 w
      = _login R h rem self url data_n (Z.of_nat n) w_n
      /\ posts w_n = (posts w + n)%nat
      /\ sleeps w_n = sleeps w.
Proof.
  induction n as [|n IH]; intros data w Hn Hfail.
  - exists data, w. split; [reflexivity|]. split; [lia | reflexivity].
  - destruct (IH data w) as [data_n [w_n [Heq [Hp Hs]]]].
    { lia. }
    { intros k r Hk. apply Hfail. lia. }
    rewrite Heq, _login_step.
    destruct (_login_try_fails h rem self url data_n w_n) as [data' [Htry Hexc]].
    { apply Hfail. lia. }
    rewrite Htry, Hexc.
    assert (Hle : (Z.of_nat n + 1 >? R) = false).
    { destruct (Z.of_nat n + 1 >? R) eqn:E; [|reflexivity].
      apply Z.gtb_gt in E. lia. }
    rewrite Hle.
    exists data', (Post (_login_request h self url data_n) :: w_n).
    split; [f_equal; lia|].
    rewrite posts_Post, sleeps_Post. split; [lia | exact Hs].
Qed.

(** ** [_login]: one attempt *)

Lemma py_in_accepted (v : json) :
  py_in_ints v [200; 803] = true <-> v = JInt 200 \/ v = JInt 803.
Proof.
  unfold py_in_ints, existsb, py_eq_int. split.
  - destruct v as [|[|]|n|s|items|fields]; simpl; try discriminate.
    rewrite !orb_false_r. intros H. apply orb_true_iff in H.
    destruct H as [H|H]; apply Z.eqb_eq in H; subst; auto.
  - intros [->| ->]; reflexivity.
Qed.

(** The [try] block alone.  When an attempt of [_login] receives a
    response, the [try] block returns exactly when the [code] field of the parsed body is 200 or
    803, and it then returns the session token assembled from the cookies
    of the response; for any other code it raises [Music163BadCode] with
    the parsed body, an exception that the handler of [_login] takes (the
    retry path). *)
Theorem login_try_accepts_200_and_803 (h : list (string * string))
  (rem : nat -> request -> outcome) (self : LoginMusic163) (url : string)
  (data : json) (w : world) (body : json) (cookies : SimpleCookie)
  (Hresp : rem (posts w) (_login_request h self url data) = Responds body cookies) :
  ((exists token, fst (fst (_login_try h rem self url data w)) = Ok token)
   <-> (getitem body "code" = Ok (JInt 200) \/ getitem body "code" = Ok (JInt 803)))
  /\ ((getitem body "code" = Ok (JInt 200) \/ getitem body "code" = Ok (JInt 803)) ->
      fst (fst (_login_try h rem self url data w))
      = Ok (_SimpleCookieToCookieStr cookies))
  /\ (forall code : json,
        getitem body "code" = Ok code -> code <> JInt 200 -> code <> JInt 803 ->
        fst (fst (_login_try h rem self url data w)) = Raise (Music163BadCode body)
        /\ handler_catches (guard_eval _login_guard) (Music163BadCode body) = true).
Proof.
  unfold _login_try. rewrite Hresp.
  destruct (getitem body "code") as [code|e] eqn:Hcode.
  - destruct (py_in_ints code [200; 803]) eqn:Hin; simpl.
    + apply py_in_accepted in Hin.
      assert (Hacc : Ok code = Ok (JInt 200) \/ Ok code = Ok (JInt 803)).
      { destruct Hin as [->| ->]; auto. }
      split; [split; [intros _; exact Hacc | intros _; eauto]|].
      split; [reflexivity|].
      intros code' [= <-] H200 H803. destruct Hin; contradiction.
    + assert (Hrej : ~ (Ok code = Ok (JInt 200) \/ Ok code = Ok (JInt 803))).
      { intros [[= ->]|[= ->]]; discriminate. }
      split; [split; [intros [token Ht]; discriminate | intros Hacc; contradiction]|].
      split; [intros Hacc; contradiction|].
      intros code' _ _ _. split; reflexivity.
  - simpl. split; [split|split].
    + intros [token Ht]. discriminate.
    + intros [H|H]; discriminate.
    + intros [H|H]; discriminate.
    + intros code H. discriminate.
Qed.

Lemma login_try_accepts_200_and_803_witness :
  fst (fst (_login_try [] (fun _ _ => Responds (JObj [("code", JInt 803)])
                                         [("MUSIC_U", mkMorsel "MUSIC_U" "00F1" [])])
                       (LoginMusic163_init None) "/api/login" (JObj []) []))
  = Ok "MUSIC_U=00F1; ".
Proof.
  apply (login_try_accepts_200_and_803 []
           (fun _ _ => Responds (JObj [("code", JInt 803)])
                         [("MUSIC_U", mkMorsel "MUSIC_U" "00F1" [])])
           (LoginMusic163_init None) "/api/login" (JObj []) []
           (JObj [("code", JInt 803)])
           [("MUSIC_U", mkMorsel "MUSIC_U" "00F1" [])] eq_refl).
  right. reflexivity.
Defined.

(** ** [_login]: the bound on the attempts *)

(** C2, amended.  When the limit is not negative and each of the attempts
    of a call of [_login] fails with an error the handler takes (an
    exception that is an instance of [Exception], or a body whose code is
    missing or not accepted), the call makes exactly [RECONNECTION + 1]
    attempts, those with the counter at 0, ..., [RECONNECTION], and raises
    [CannotConnectApi] with the path and the failure of the last attempt;
    it sends nothing more and never sleeps. *)
Theorem login_stops_after_limit_plus_one_attempts (R : Z)
  (h : list (string * string)) (rem : nat -> request -> outcome)
  (self : LoginMusic163) (url : string) (data : json) (w : world)
  (Hlimit : 0 <= R)
  (Hfail : forall (k : nat) (r : request),
      (posts w <= k <= posts w + Z.to_nat R)%nat -> attempt_fails (rem k r) = true) :
  (exists (r_last : request) (w_mid : world),
      _login R h rem self url data 0 w
      = (Raise (CannotConnectApi R url
                  (failure_of (rem (posts w + Z.to_nat R)%nat r_last))),
         Post r_last :: w_mid)
      /\ Z.of_nat (posts (Post r_last :: w_mid)) = Z.of_nat (posts w) + (R + 1)
      /\ sleeps (Post r_last :: w_mid) = sleeps w
      /\ req_url r_last = "https://music.163.com" ++ url)
  /\ (forall count : Z,
        0 <= count <= R ->
        exists (data_n : json) (w_n : world),
          _login R h rem self url data 0 w
          = _login R h rem self url data_n count w_n
          /\ Z.of_nat (posts w_n) = Z.of_nat (posts w) + count).
Proof.
  split.
  - destruct (_login_exhausts R h rem self url (Z.to_nat R) data 0 w)
      as [r_last [w_mid [Heq [Hp [Hs Hu]]]]].
    + f_equal. lia.
    + intros k r Hk. apply Hfail. lia.
    + exists r_last, w_mid. rewrite <- Hp.
      split; [exact Heq|]. split; [|split; assumption].
      rewrite posts_Post, Hp. lia.
  - intros count Hcount.
    destruct (_login_reaches_counter R h rem self url (Z.to_nat count) data w)
      as [data_n [w_n [Heq [Hp Hs]]]].
    + lia.
    + intros k r Hk. apply Hfail. lia.
    + exists data_n, w_n. rewrite Z2Nat.id in Heq by lia.
      split; [exact Heq | lia].
Qed.

Lemma login_stops_after_limit_plus_one_attempts_witness :
  (exists (r_last : request) (w_mid : world),
      _login 3 [] (always_code 502) (LoginMusic163_init None) "/api/login" (JObj []) 0 []
      = (Raise (CannotConnectApi 3 "/api/login"
                  (failure_of (always_code 502 (posts [] + Z.to_nat 3)%nat r_last))),
         Post r_last :: w_mid)
      /\ Z.of_nat (posts (Post r_last :: w_mid)) = Z.of_nat (posts []) + (3 + 1)
      /\ sleeps (Post r_last :: w_mid) = sleeps []
      /\ req_url r_last = "https://music.163.com" ++ "/api/login")
  /\ (forall count : Z,
        0 <= count <= 3 ->
        exists (data_n : json) (w_n : world),
          _login 3 [] (always_code 502) (LoginMusic163_init None) "/api/login"
                 (JObj []) 0 []
          = _login 3 [] (always_code 502) (LoginMusic163_init None) "/api/login"
                   data_n count w_n
          /\ Z.of_nat (posts w_n) = Z.of_nat (posts []) + count).
Proof.
  apply (login_stops_after_limit_plus_one_attempts 3 [] (always_code 502)
           (LoginMusic163_init None) "/api/login" (JObj []) []).
  - lia.
  - intros k r _. reflexivity.
Defined.

(** C2, as stated, fails.  An attempt that raises an exception which is
    not an instance of [Exception] (a cancelled task) is an attempt that
    fails, yet the call makes that one attempt and re-raises the
    exception: no [CannotConnectApi], no [RECONNECTION + 1] attempts.  With
    a negative limit a failing call makes one attempt, not
    [RECONNECTION + 1]. *)
Lemma login_cancelled_attempt_is_not_retried :
  ~ (forall (R : Z) (h : list (string * string)) (rem : nat -> request -> outcome)
       (self : LoginMusic163) (url : string) (data : json) (w : world),
        (forall (k : nat) (r : request), attempt_raises_or_rejects (rem k r) = true) ->
        exists (cause : exn) (w' : world),
          _login R h rem self url data 0 w = (Raise (CannotConnectApi R url cause), w')
          /\ Z.of_nat (posts w') = Z.of_nat (posts w) + (R + 1))
  /\ _login 3 [] (fun _ _ => Fails CancelledError) (LoginMusic163_init None)
            "/api/login" (JObj []) 0 []
     = (Raise CancelledError,
        [Post (_login_request [] (LoginMusic163_init None) "/api/login" (JObj []))])
  /\ posts (snd (_login (-1) [] (always_code 502) (LoginMusic163_init None)
                        "/api/login" (JObj []) 0 [])) = 1%nat.
Proof.
  split; [|split; vm_compute; reflexivity].
  intros Hclaim.
  destruct (Hclaim 3 [] (fun _ _ => Fails CancelledError) (LoginMusic163_init None)
              "/api/login" (JObj []) [] (fun _ _ => eq_refl))
    as [cause [w' [Heq _]]].
  vm_compute in Heq. discriminate Heq.
Qed.

(** ** Business rejections *)

Lemma _login_rejected (R : Z) (h : list (string * string)) (code : Z)
  (self : LoginMusic163) (url : string) (data : json) (w : world) :
  code <> 200 -> code <> 803 ->
  exists w' : world,
    _login R h (always_code code) self url data 0 w
    = (Raise (CannotConnectApi R url (Music163BadCode (JObj [("code", JInt code)]))),
       w')
    /\ posts w' = (posts w + S (Z.to_nat R))%nat
    /\ sleeps w' = sleeps w.
Proof.
  intros H200 H803.
  destruct (_login_exhausts R h (always_code code) self url (Z.to_nat R) data 0 w)
    as [r_last [w_mid [Heq [Hp [Hs Hu]]]]].
  - f_equal. lia.
  - intros k r _. unfold always_code, attempt_fails. simpl.
    destruct (Z.eqb_spec code 200); [contradiction|].
    destruct (Z.eqb_spec code 803); [contradiction|]. reflexivity.
  - exists (Post r_last :: w_mid). split; [exact Heq|].
    rewrite posts_Post, sleeps_Post, Hp. split; [lia | exact Hs].
Qed.

(** C1. The claim: a login answered with a code outside 200 and 803 is
    raised at once as [Music163BadCode], without a retry.  The code: for
    every reconnection limit, an email login that the remote rejects with
    502 (wrong password) raises [CannotConnectApi], which is not a
    [Music163BadCode], after [max(RECONNECTION, 0) + 1] requests. *)
Theorem email_rejection_is_retried (R : Z) :
  exists (self' : LoginMusic163) (w' : world),
    email R [] (always_code 502) (LoginMusic163_init None) "a@b.c" "pw" []
    = (Raise (CannotConnectApi R "/api/login"
                (Music163BadCode (JObj [("code", JInt 502)]))), self', w')
    /\ isinstance (CannotConnectApi R "/api/login"
                     (Music163BadCode (JObj [("code", JInt 502)])))
                  Music163BadCodeC = false
    /\ posts w' = S (Z.to_nat R).
Proof.
  unfold email.
  destruct (_md5 (LoginMusic163_init None) "pw") as [hashed self1].
  destruct (_login_rejected R [] 502 self1 "/api/login"
              (JObj [("username", JStr "a@b.c"); ("password", JStr hashed);
                     ("rememberLogin", JStr "true")]) [])
    as [w' [Heq [Hp Hs]]]; [lia | lia |].
  rewrite Heq. exists self1, w'. split; [reflexivity|]. split; [reflexivity|].
  exact Hp.
Qed.

(** ** QR login *)

(** C4. The claim: one [qr_check] is one poll, and on 801, 802 or 800 it
    raises a typed error that carries that code.  The code: for every
    reconnection limit and each of the three codes, [qr_check] against a
    remote that keeps reporting the code sends [max(RECONNECTION, 0) + 1]
    requests and raises [CannotConnectApi], not [Music163BadCode]. *)
Theorem qr_check_pending_is_retried (R : Z) (code : Z) (key_ : string)
  (self : LoginMusic163) :
  In code [801; 802; 800] ->
  exists w' : world,
    qr_check R [] (always_code code) self key_ []
    = (Raise (CannotConnectApi R "/api/login/qrcode/client/login"
                (Music163BadCode (JObj [("code", JInt code)]))), w')
    /\ isinstance (CannotConnectApi R "/api/login/qrcode/client/login"
                     (Music163BadCode (JObj [("code", JInt code)])))
                  Music163BadCodeC = false
    /\ posts w' = S (Z.to_nat R).
Proof.
  intros Hcode. unfold qr_check.
  destruct (_login_rejected R [] code self "/api/login/qrcode/client/login"
              (JObj [("key", JStr key_); ("type", JInt 1)]) [])
    as [w' [Heq [Hp Hs]]].
  - simpl in Hcode. lia.
  - simpl in Hcode. lia.
  - exists w'. split; [exact Heq|]. split; [reflexivity | exact Hp].
Qed.

Lemma qr_check_pending_is_retried_witness :
  exists w' : world,
    qr_check 3 [] (always_code 801) (LoginMusic163_init None) "k" []
    = (Raise (CannotConnectApi 3 "/api/login/qrcode/client/login"
                (Music163BadCode (JObj [("code", JInt 801)]))), w')
    /\ isinstance (CannotConnectApi 3 "/api/login/qrcode/client/login"
                     (Music163BadCode (JObj [("code", JInt 801)])))
                  Music163BadCodeC = false
    /\ posts w' = S (Z.to_nat 3).
Proof.
  apply (qr_check_pending_is_retried 3 801 "k" (LoginMusic163_init None)).
  simpl. lia.
Defined.

(** C5. The claim: [qr] sleeps and polls again on 801 and 802, and on 800
    returns without raising.  The code: for every reconnection limit,
    [qr] against the statuses 801, 800 raises [CannotConnectApi] out of
    its first iteration, after [max(RECONNECTION, 0) + 1] requests and no
    sleep; against 801, 801, 802, 803 it returns the token after four
    requests and no sleep when the limit is 3, and raises when the limit
    is 2. *)
Theorem qr_expired_raises (R : Z) (fuel : nat) (key_ : string) (time_sleep : Z) :
  (exists (err : exn) (w' : world),
      qr R [] waiting_then_expired (S fuel) (LoginMusic163_init None) key_
         time_sleep []
      = Some (Raise (CannotConnectApi R "/api/login/qrcode/client/login" err),
              LoginMusic163_init None, w')
      /\ posts w' = S (Z.to_nat R)
      /\ sleeps w' = 0%nat)
  /\ (exists w' : world,
      qr 3 [] scanned_at_fourth (S fuel) (LoginMusic163_init None) key_
         time_sleep []
      = Some (Ok (Some "MUSIC_U=00F1; ", mkMusic163Api (Some "MUSIC_U=00F1; ")),
              mkLoginMusic163 (Some "MUSIC_U=00F1; ") hashlib.md5, w')
      /\ posts w' = 4%nat
      /\ sleeps w' = 0%nat)
  /\ (exists w' : world,
      qr 2 [] scanned_at_fourth (S fuel) (LoginMusic163_init None) key_
         time_sleep []
      = Some (Raise (CannotConnectApi 2 "/api/login/qrcode/client/login"
                       (Music163BadCode (JObj [("code", JInt 802)]))),
              LoginMusic163_init None, w')
      /\ posts w' = 3%nat
      /\ sleeps w' = 0%nat).
Proof.
  split; [|split].
  - destruct (_login_exhausts R [] waiting_then_expired (LoginMusic163_init None)
                "/api/login/qrcode/client/login" (Z.to_nat R)
                (JObj [("key", JStr key_); ("type", JInt 1)]) 0 [])
      as [r_last [w_mid [Heq [Hp [Hs Hu]]]]].
    + f_equal. lia.
    + intros k r _. destruct k; reflexivity.
    + exists (failure_of (waiting_then_expired (posts w_mid) r_last)),
             (Post r_last :: w_mid).
      split; [|split].
      * simpl. unfold qr_check. rewrite Heq. reflexivity.
      * rewrite posts_Post, Hp. reflexivity.
      * rewrite sleeps_Post, Hs. reflexivity.
  - eexists. split; [|split]; vm_compute; reflexivity.
  - eexists. split; [|split]; vm_compute; reflexivity.
Qed.

(** ** Password hashing *)

(** The digests of the test suite of RFC 1321. *)
Lemma md5_test_vectors :
  hashlib.hexdigest "" = "d41d8cd98f00b204e9800998ecf8427e"
  /\ hashlib.hexdigest "abc" = "900150983cd24fb0d6963f7d28e17f72"
  /\ hashlib.hexdigest "message digest" = "f96b697d7cb7938d525a2f31aaf161d0"
  /\ hashlib.hexdigest
       "12345678901234567890123456789012345678901234567890123456789012345678901234567890"
     = "57edf4a22be3c955ac49da2e2107b67a".
Proof. repeat split; vm_compute; reflexivity. Qed.

(** C6. The claim: every call [_md5(s)] returns the MD5 digest of [s]
    alone.  The code: the instance keeps one hasher, so a call returns the
    digest of all the inputs of the instance so far; the second of two
    calls on the same input returns the digest of the input written
    twice, which differs from the digest of the first call; a cellphone
    login after an email login with the same password posts another
    password hash than the email login did. *)
Theorem md5_accumulates_over_calls :
  (forall (self : LoginMusic163) (s : string),
      fst (_md5 self s) = hashlib.hexdigest (__hl self ++ s)
      /\ __hl (snd (_md5 self s)) = __hl self ++ s)
  /\ fst (_md5 (LoginMusic163_init None) "a") = "0cc175b9c0f1b6a831c399e269772661"
  /\ fst (_md5 (snd (_md5 (LoginMusic163_init None) "a")) "a")
     = "4124bc0a9335c27f086f24ba207a4912"
  /\ fst (_md5 (snd (_md5 (LoginMusic163_init None) "a")) "a")
     = hashlib.hexdigest (hashlib.update hashlib.md5 "aa")
  /\ fst (_md5 (snd (_md5 (LoginMusic163_init None) "a")) "a")
     <> fst (_md5 (LoginMusic163_init None) "a")
  /\ (let '(_, self1, w1) :=
         email 3 [] (always_code 200) (LoginMusic163_init None) "a@b.c" "pw" [] in
       let '(_, _, w2) :=
         cellphone 3 [] (always_code 200) self1 (JStr "13800000000") "pw" false
                   (JStr "86") w1 in
       posted_passwords w2)
     = [JStr "f62c622f63efafe1c3e3d04c76c0784a";
        JStr "8fe4c11451281c094a6578e6ddbf5eed"].
Proof.
  split; [intros self s; split; reflexivity|].
  split; [vm_compute; reflexivity|].
  split; [vm_compute; reflexivity|].
  split; [vm_compute; reflexivity|].
  split; [vm_compute; discriminate|].
  vm_compute. reflexivity.
Qed.

(** ** [Music163Api.my] *)

(** C9, as stated, fails: a response without a [profile] field makes the
    lookup raise [KeyError], not [Music163BadData]. *)
Lemma my_missing_profile_is_KeyError :
  ~ (forall (answer : nat -> string -> option string -> json -> result json)
       (self : Music163Api) (w : world) (data : json),
        answer (api_posts w) "/api/w/nuser/account/get" (api_cookie self) JNull
        = Ok data ->
        (fst (my answer self w) = Raise (Music163BadData data)
         <-> (getitem data "profile" = Raise (KeyError "profile")
              \/ getitem data "profile" = Ok JNull))).
Proof.
  intros Hclaim.
  specialize (Hclaim (fun _ _ _ _ => Ok (JObj [("code", JInt 200)]))
                     (mkMusic163Api (Some "MUSIC_U=00F1; ")) []
                     (JObj [("code", JInt 200)]) eq_refl).
  destruct Hclaim as [_ Hback].
  specialize (Hback (or_introl eq_refl)).
  vm_compute in Hback. discriminate.
Qed.

(** C9, amended.  [my] raises [Music163BadData] with the response exactly
    when the [profile] field of the response is present and null; when the
    lookup of [profile] raises (a response without the field: [KeyError])
    that exception is what [my] raises; when the field is present and not
    null, [my] returns the [My] object built from the response and the
    current cookie. *)
Theorem my_bad_data_iff_profile_null
  (answer : nat -> string -> option string -> json -> result json)
  (self : Music163Api) (w : world) (data : json)
  (Hanswer : answer (api_posts w) "/api/w/nuser/account/get" (api_cookie self) JNull
             = Ok data) :
  (fst (my answer self w) = Raise (Music163BadData data)
   <-> getitem data "profile" = Ok JNull)
  /\ (forall fields : list (string * json),
        data = JObj fields -> assoc_get "profile" fields = None ->
        fst (my answer self w) = Raise (KeyError "profile"))
  /\ (forall profile : json,
        getitem data "profile" = Ok profile -> profile <> JNull ->
        fst (my answer self w) = Ok (mkMy data (api_cookie self))).
Proof.
  unfold my, bind, _post, lift. rewrite Hanswer.
  destruct (getitem data "profile") as [profile|e] eqn:Hprofile.
  - split; [|split].
    + destruct profile; simpl; split; intros H; try discriminate; reflexivity.
    + intros fields -> Hnone. simpl in Hprofile. rewrite Hnone in Hprofile.
      discriminate.
    + intros profile' [= <-] Hnot. destruct profile; try reflexivity.
      contradiction.
  - split; [|split].
    + simpl. split; intros H; [|discriminate].
      injection H as ->. unfold getitem in Hprofile.
      destruct data; try discriminate.
      destruct (assoc_get "profile" fields); discriminate.
    + intros fields -> Hnone. simpl in Hprofile. rewrite Hnone in Hprofile.
      injection Hprofile as <-. reflexivity.
    + intros profile H. discriminate.
Qed.

Lemma my_bad_data_iff_profile_null_witness :
  fst (my (fun _ _ _ _ => Ok (JObj [("code", JInt 200); ("profile", JNull)]))
          (mkMusic163Api (Some "MUSIC_U=00F1; ")) [])
  = Raise (Music163BadData (JObj [("code", JInt 200); ("profile", JNull)])).
Proof.
  apply (my_bad_data_iff_profile_null
           (fun _ _ _ _ => Ok (JObj [("code", JInt 200); ("profile", JNull)]))
           (mkMusic163Api (Some "MUSIC_U=00F1; ")) []
           (JObj [("code", JInt 200); ("profile", JNull)]) eq_refl).
  reflexivity.
Defined.

(** ** [Music163Api.playlist] *)

Lemma firstn_add {A : Type} (p q : nat) (l : list A) :
  (firstn p l ++ firstn q (skipn p l))%list = firstn (p + q) l.
Proof.
  revert l; induction p as [|p IH]; intros l; [reflexivity|].
  destruct l as [|x l]; simpl.
  - now rewrite firstn_nil.
  - now rewrite IH.
Qed.

Lemma getitem_dict_set (k : string) (v : json) (fields : list (string * json)) :
  getitem (JObj (dict_set k v fields)) k = Ok v.
Proof.
  unfold getitem. induction fields as [|[k' v'] fields IH]; simpl.
  - now rewrite String.eqb_refl.
  - destruct (String.eqb k' k) eqn:E; simpl; rewrite E; [reflexivity | exact IH].
Qed.

(** The follow-up batches of [playlist], for any remote whose song-detail
    endpoint answers a batch of ids with the songs of those ids, in their
    order. *)
Section PlaylistBatches.

Variable answer : nat -> string -> option string -> json -> result json.
Variable id_format : json -> bool -> json.
Variable song : json -> json.
Variable self : Music163Api.

Hypothesis Hdetail : forall (k : nat) (chunk : list json),
  exists resp : json,
    answer k "/api/v3/song/detail" (api_cookie self)
           (JObj [("c", id_format (JArr chunk) true)]) = Ok resp
    /\ getitem resp "songs" = Ok (JArr (map song chunk)).

(** A batch that does not hold exactly one song comes back as a
    generator. *)
Lemma music_of_batch (chunk : list json) (w : world) :
  List.length chunk <> 1%nat ->
  exists w' : world,
    music answer id_format self (JArr chunk) w
    = (Ok (MusicGenerator (map (fun d => mkMusic d (api_cookie self)) (map song chunk))), w')
    /\ api_posts w' = S (api_posts w).
Proof.
  intros Hlen. unfold music, bind, _post, lift.
  destruct (Hdetail (api_posts w) chunk) as [resp [Hans Hsongs]].
  rewrite Hans, Hsongs. simpl as_list. cbn iota beta.
  rewrite length_map.
  destruct (Nat.eqb_spec (List.length chunk) 1); [contradiction|].
  eexists. split; reflexivity.
Qed.

(** The loop appends the songs of its batches, in order, as long as no
    batch holds exactly one song. *)
Lemma playlist_loop_appends (trackIds : list json) (b : nat) (m : nat) :
  b = 1000%nat ->
  forall (a : nat) (fields : list (string * json)) (tracks : list json) (w : world),
    getitem (JObj fields) "tracks" = Ok (JArr tracks) ->
    (forall j : nat, (a <= j < a + m)%nat ->
        List.length (py_slice trackIds (j * b) (j * b + b)) <> 1%nat) ->
    exists (fields' : list (string * json)) (w' : world),
      playlist_loop answer id_format self (map (fun k => (k * b)%nat) (seq a m))
                    trackIds (JObj fields) w
      = (Ok (JObj fields'), w')
      /\ getitem (JObj fields') "tracks"
         = Ok (JArr (tracks ++ map song (firstn (m * b) (skipn (a * b) trackIds)))%list)
      /\ api_posts w' = (api_posts w + m)%nat.
Proof.
  intros Hb. induction m as [|m IH]; intros a fields tracks w Htracks Hlen.
  - exists fields, w. split; [reflexivity|]. split; [|lia].
    simpl. now rewrite app_nil_r.
  - change (map (fun k => (k * b)%nat) (seq a (S m)))
      with ((a * b)%nat :: map (fun k => (k * b)%nat) (seq (S a) m)).
    cbn [playlist_loop]. unfold bind at 1.
    destruct (music_of_batch (py_slice trackIds (a * b) (a * b + 1000)) w)
      as [w1 [Hmusic Hposts]].
    { rewrite <- Hb. apply Hlen. lia. }
    rewrite Hmusic. cbn [py_list]. unfold bind at 1, lift at 1.
    rewrite map_map. cbn [music_data]. rewrite map_id.
    unfold bind at 1, lift at 1, tracks_iadd. rewrite Htracks.
    destruct (IH (S a)
                (dict_set "tracks"
                   (JArr (tracks ++ map song (py_slice trackIds (a * b) (a * b + 1000)))%list)
                   fields)
                (tracks ++ map song (py_slice trackIds (a * b) (a * b + 1000)))%list w1)
      as [fields' [w' [Hloop [Hres Hp]]]].
    { apply getitem_dict_set. }
    { intros j Hj. apply Hlen. lia. }
    exists fields', w'. split; [exact Hloop|]. split; [|lia].
    rewrite Hres. do 2 f_equal. rewrite <- app_assoc. f_equal.
    rewrite <- map_app. f_equal.
    unfold py_slice. rewrite <- Hb.
    replace (a * b + b - a * b)%nat with b by lia.
    replace (S a * b)%nat with (b + a * b)%nat by lia.
    rewrite <- skipn_skipn.
    replace (S m * b)%nat with (b + m * b)%nat by lia.
    apply firstn_add.
Qed.

Lemma batch_length (l : list json) (j b : nat) :
  List.length (py_slice l (j * b) (j * b + b)) = Nat.min b (List.length l - j * b).
Proof.
  unfold py_slice. rewrite length_firstn, length_skipn.
  replace (j * b + b - j * b)%nat with b by lia. reflexivity.
Qed.

(** X15. For a remote whose song-detail endpoint answers a batch of ids
    with the songs of those ids: when the number of tracks is not one more
    than a multiple of a thousand, [playlist] returns the tracks of the first answer followed by
    the songs of the remaining ids, in order, after one request per batch
    of a thousand remaining ids (none when there are at most a thousand
    tracks). *)
Lemma playlist_appends_batches (id_ : json) (w : world) (data : json)
  (fields : list (string * json)) (entries ids tracks : list json) :
  answer (api_posts w) "/api/v6/playlist/detail" (api_cookie self)
         (JObj [("id", id_); ("n", JInt 100000)]) = Ok data ->
  getitem data "playlist" = Ok (JObj fields) ->
  getitem (JObj fields) "trackIds" = Ok (JArr entries) ->
  comprehension song_get_id entries = Ok ids ->
  getitem (JObj fields) "tracks" = Ok (JArr tracks) ->
  (List.length ids mod 1000 <> 1)%nat ->
  exists (pl : PlayList) (w' : world),
    playlist answer id_format self id_ w = (Ok pl, w')
    /\ getitem (playlist_data pl) "tracks"
       = Ok (JArr (tracks ++ map song (skipn 1000 ids))%list)
    /\ api_posts w'
       = (api_posts w + 1 + (List.length ids - 1000 + 999) / 1000)%nat.
Proof.
  intros Hans Hpl Hids Hcomp Htracks Hmod.
  unfold playlist, bind at 1, _post. rewrite Hans.
  unfold bind at 1, lift at 1. rewrite Hpl.
  unfold bind at 1, lift at 1. rewrite Hids.
  unfold bind at 1, lift at 1. cbn [as_list].
  unfold bind at 1, lift at 1. rewrite Hcomp.
  remember 1000%nat as b eqn:Hb.
  assert (Hposts : api_posts (ApiPost "/api/v6/playlist/detail" (api_cookie self)
                                (JObj [("id", id_); ("n", JInt 100000)]) :: w)
                   = S (api_posts w)) by reflexivity.
  destruct (skipn b ids) as [|x rest] eqn:Hskip.
  - eexists; eexists. split; [reflexivity|]. cbn [playlist_data].
    split; [now rewrite Htracks, app_nil_r|].
    rewrite Hposts.
    assert (Hlen : (List.length ids <= b)%nat).
    { pose proof (length_skipn b ids) as H. rewrite Hskip in H. simpl in H. lia. }
    replace (List.length ids - b)%nat with 0%nat by lia.
    subst b. rewrite Nat.add_0_l, Nat.div_small; lia.
  - rewrite <- Hskip.
    assert (Hlen : List.length (skipn b ids) = (List.length ids - b)%nat)
      by apply length_skipn.
    assert (Hpos : (0 < List.length (skipn b ids))%nat)
      by (rewrite Hskip; simpl; lia).
    set (L := List.length (skipn b ids)) in *.
    unfold py_range0.
    assert (Hm : exists m : nat,
               ((L + b - 1) / b = m /\ L <= m * b /\ m * b < L + b
                /\ (List.length ids - b + 999) / b = m)%nat).
    { exists ((L + b - 1) / b)%nat.
      pose proof (Nat.div_mod_eq (L + b - 1) b) as Hd.
      pose proof (Nat.mod_upper_bound (L + b - 1) b) as Hu.
      split; [reflexivity|]. split; [subst b; lia|]. split; [subst b; lia|].
      rewrite Hlen. f_equal. subst b; lia. }
    destruct Hm as [m [Hdiv [Hlow [Hhigh Hcount]]]]. rewrite Hdiv, Hcount.
    destruct (playlist_loop_appends (skipn b ids) b m Hb 0%nat fields tracks
                (ApiPost "/api/v6/playlist/detail" (api_cookie self)
                   (JObj [("id", id_); ("n", JInt 100000)]) :: w) Htracks)
      as [fields' [w' [Hloop [Hres Hp]]]].
    { intros j Hj. rewrite batch_length. fold L.
      intros Hone.
      assert (HL : (L = j * b + 1)%nat) by (subst b; lia).
      apply Hmod.
      replace (List.length ids) with (1 + (j + 1) * b)%nat by lia.
      subst b. rewrite Nat.Div0.mod_add. reflexivity. }
    unfold bind at 1. rewrite Hloop.
    eexists; eexists. split; [reflexivity|]. cbn [playlist_data].
    split.
    + rewrite Hres, Nat.mul_0_l. cbn [skipn].
      rewrite firstn_all2; [reflexivity | fold L; lia].
    + rewrite Hp, Hposts. lia.
Qed.

(** A batch of one song comes back as one [Music]. *)
Lemma music_of_single (chunk : list json) (w : world) :
  List.length chunk = 1%nat ->
  exists (m : Music) (w' : world),
    music answer id_format self (JArr chunk) w = (Ok (OneMusic m), w')
    /\ api_posts w' = S (api_posts w).
Proof.
  intros Hlen. unfold music, bind, _post, lift.
  destruct (Hdetail (api_posts w) chunk) as [resp [Hans Hsongs]].
  rewrite Hans, Hsongs. simpl as_list. cbn iota beta.
  rewrite length_map, Hlen.
  eexists; eexists. split; reflexivity.
Qed.

(** The loop raises at the first batch of exactly one song. *)
Lemma playlist_loop_single (trackIds : list json) (b : nat) (m : nat) :
  b = 1000%nat ->
  forall (a : nat) (fields : list (string * json)) (tracks : list json) (w : world),
    getitem (JObj fields) "tracks" = Ok (JArr tracks) ->
    (forall j : nat, (a <= j < a + m)%nat ->
        List.length (py_slice trackIds (j * b) (j * b + b)) <> 1%nat) ->
    List.length (py_slice trackIds ((a + m) * b) ((a + m) * b + b)) = 1%nat ->
    exists w' : world,
      playlist_loop answer id_format self (map (fun k => (k * b)%nat) (seq a (S m)))
                    trackIds (JObj fields) w
      = (Raise (TypeError "'Music' object is not iterable"), w')
      /\ api_posts w' = (api_posts w + S m)%nat.
Proof.
  intros Hb. induction m as [|m IH]; intros a fields tracks w Htracks Hlen Hone.
  - change (map (fun k => (k * b)%nat) (seq a 1)) with [(a * b)%nat].
    cbn [playlist_loop]. unfold bind at 1.
    destruct (music_of_single (py_slice trackIds (a * b) (a * b + 1000)) w)
      as [mu [w1 [Hmusic Hposts]]].
    { rewrite <- Hb. rewrite Nat.add_0_r in Hone. exact Hone. }
    rewrite Hmusic. cbn [py_list]. unfold bind at 1, lift at 1.
    exists w1. split; [reflexivity | lia].
  - change (map (fun k => (k * b)%nat) (seq a (S (S m))))
      with ((a * b)%nat :: map (fun k => (k * b)%nat) (seq (S a) (S m))).
    cbn [playlist_loop]. unfold bind at 1.
    destruct (music_of_batch (py_slice trackIds (a * b) (a * b + 1000)) w)
      as [w1 [Hmusic Hposts]].
    { rewrite <- Hb. apply Hlen. lia. }
    rewrite Hmusic. cbn [py_list]. unfold bind at 1, lift at 1.
    unfold bind at 1, lift at 1, tracks_iadd. rewrite Htracks.
    destruct (IH (S a)
                (dict_set "tracks"
                   (JArr (tracks ++
                          map music_data
                            (map (fun d => mkMusic d (api_cookie self))
                               (map song (py_slice trackIds (a * b) (a * b + 1000)))))%list)
                   fields)
                (tracks ++
                 map music_data
                   (map (fun d => mkMusic d (api_cookie self))
                      (map song (py_slice trackIds (a * b) (a * b + 1000)))))%list w1)
      as [w' [Hloop Hp]].
    { apply getitem_dict_set. }
    { intros j Hj. apply Hlen. lia. }
    { replace (S a + m)%nat with (a + S m)%nat by lia. exact Hone. }
    exists w'. split; [exact Hloop | lia].
Qed.

(** X16. For a remote whose song-detail endpoint answers a batch of ids
    with the songs of those ids: when the number of tracks is above a
    thousand and one more than a multiple of a thousand, the last batch
    holds one id and [playlist] raises [TypeError] instead of returning the
    playlist. *)
Lemma playlist_single_last_batch_raises (id_ : json) (w : world) (data : json)
  (fields : list (string * json)) (entries ids tracks : list json) :
  answer (api_posts w) "/api/v6/playlist/detail" (api_cookie self)
         (JObj [("id", id_); ("n", JInt 100000)]) = Ok data ->
  getitem data "playlist" = Ok (JObj fields) ->
  getitem (JObj fields) "trackIds" = Ok (JArr entries) ->
  comprehension song_get_id entries = Ok ids ->
  getitem (JObj fields) "tracks" = Ok (JArr tracks) ->
  (1000 < List.length ids)%nat ->
  (List.length ids mod 1000 = 1)%nat ->
  exists w' : world,
    playlist answer id_format self id_ w
    = (Raise (TypeError "'Music' object is not iterable"), w').
Proof.
  intros Hans Hpl Hids Hcomp Htracks Hbig Hmod.
  unfold playlist, bind at 1, _post. rewrite Hans.
  unfold bind at 1, lift at 1. rewrite Hpl.
  unfold bind at 1, lift at 1. rewrite Hids.
  unfold bind at 1, lift at 1. cbn [as_list].
  unfold bind at 1, lift at 1. rewrite Hcomp.
  remember 1000%nat as b eqn:Hb.
  assert (Hlen : List.length (skipn b ids) = (List.length ids - b)%nat)
    by apply length_skipn.
  destruct (skipn b ids) as [|x rest] eqn:Hskip; [simpl in Hlen; lia|].
  rewrite <- Hskip in *.
  set (L := List.length (skipn b ids)) in *.
  assert (Hq : exists q : nat, (L = q * b + 1 /\ (L + b - 1) / b = S q)%nat).
  { exists (List.length ids / b - 1)%nat.
    pose proof (Nat.div_mod_eq (List.length ids) b) as Hd.
    assert (Hge : (1 <= List.length ids / b)%nat).
    { apply Nat.div_le_lower_bound; subst b; lia. }
    assert (HL : (L = (List.length ids / b - 1) * b + 1)%nat) by (subst b; lia).
    split; [exact HL|].
    replace (L + b - 1)%nat with (S (List.length ids / b - 1) * b)%nat by (subst b; lia).
    apply Nat.div_mul. subst b; lia. }
  destruct Hq as [q [HL Hdiv]].
  unfold py_range0. rewrite Hdiv.
  destruct (playlist_loop_single (skipn b ids) b q Hb 0%nat fields tracks
              (ApiPost "/api/v6/playlist/detail" (api_cookie self)
                 (JObj [("id", id_); ("n", JInt 100000)]) :: w) Htracks)
    as [w' [Hloop Hp]].
  - intros j Hj. rewrite batch_length. fold L. subst b; lia.
  - rewrite batch_length. fold L. subst b; lia.
  - unfold bind at 1. rewrite Hloop. exists w'. reflexivity.
Qed.

End PlaylistBatches.

(** C8. The claim: for every playlist of more than a thousand tracks the
    remaining songs are fetched in batches and appended in order.  The
    code: for a playlist of 1001 tracks the one follow-up batch holds a
    single id, [music] then returns one [Music] and not a generator, and
    [list] of it raises [TypeError]: no playlist is returned.  For 1500
    tracks one batch of the ids 1000..1499 is fetched and the tracks are
    the 1500 songs in order; for 1000 tracks there is no follow-up.  (The
    two lemmas above give the general picture: the claim holds unless the
    number of tracks is one more than a multiple of a thousand.) *)
Theorem playlist_of_1001_tracks_raises :
  fst (playlist (playlist_server 1001) ids_as_sent (mkMusic163Api None) (JInt 7) [])
  = Raise (TypeError "'Music' object is not iterable")
  /\ detail_batches
       (snd (playlist (playlist_server 1001) ids_as_sent (mkMusic163Api None) (JInt 7) []))
     = [JArr [JInt 1000]]
  /\ tracks_of
       (fst (playlist (playlist_server 1500) ids_as_sent (mkMusic163Api None) (JInt 7) []))
     = Ok (JArr (map song_of (track_ids 1500)))
  /\ detail_batches
       (snd (playlist (playlist_server 1500) ids_as_sent (mkMusic163Api None) (JInt 7) []))
     = [JArr (skipn 1000 (track_ids 1500))]
  /\ tracks_of
       (fst (playlist (playlist_server 1000) ids_as_sent (mkMusic163Api None) (JInt 7) []))
     = Ok (JArr (map song_of (track_ids 1000)))
  /\ detail_batches
       (snd (playlist (playlist_server 1000) ids_as_sent (mkMusic163Api None) (JInt 7) []))
     = [].
Proof.
  repeat split; vm_compute; reflexivity.
Qed.

(** * Further properties *)

(** ** [_login]: what every call does *)

Lemma _login_try_world (h : list (string * string))
  (rem : nat -> request -> outcome) (self : LoginMusic163) (url : string)
  (data : json) (w : world) :
  snd (_login_try h rem self url data w) = Post (_login_request h self url data) :: w.
Proof.
  unfold _login_try.
  destruct (rem (posts w) (_login_request h self url data)) as [e|body cookies];
    [reflexivity|].
  destruct (getitem body "code") as [code|e]; [|reflexivity].
  destruct (negb (py_in_ints code [200; 803])); reflexivity.
Qed.

Lemma _login_trace (R : Z) (h : list (string * string))
  (rem : nat -> request -> outcome) (self : LoginMusic163) (url : string)
  (n : nat) :
  forall (data : json) (count : Z) (w : world),
    Z.to_nat (R - count) = n ->
    exists newer : world,
      snd (_login R h rem self url data count w)
      = (newer ++ Post (_login_request h self url data) :: w)%list
      /\ (List.length newer <= n)%nat
      /\ Forall (same_target h self url) newer.
Proof.
  induction n as [|n IH]; intros data count w Hn; rewrite _login_step;
    pose proof (_login_try_world h rem self url data w) as Hw;
    destruct (_login_try h rem self url data w) as [[[token|err] data'] w'];
    simpl in Hw; subst w'.
  - exists []. repeat split; [simpl; lia | constructor].
  - destruct (isinstance err ExceptionC).
    + assert (Hgt : (count + 1 >? R) = true) by (apply Z.gtb_gt; lia).
      rewrite Hgt. exists []. repeat split; [simpl; lia | constructor].
    + exists []. repeat split; [simpl; lia | constructor].
  - exists []. repeat split; [simpl; lia | constructor].
  - destruct (isinstance err ExceptionC).
    + destruct (count + 1 >? R) eqn:Hgt.
      * exists []. repeat split; [simpl; lia | constructor].
      * assert (Hle : count + 1 <= R).
        { destruct (Z.gtb_spec (count + 1) R); [discriminate | lia]. }
        destruct (IH data' (count + 1) (Post (_login_request h self url data) :: w))
          as [newer [Heq [Hlen Hall]]]; [lia|].
        exists (newer ++ [Post (_login_request h self url data')])%list.
        rewrite Heq, <- app_assoc. split; [reflexivity|].
        split.
        -- rewrite length_app. simpl. lia.
        -- apply Forall_app. split; [exact Hall|].
           constructor; [exists data'; reflexivity | constructor].
    + exists []. repeat split; [simpl; lia | constructor].
Qed.

Lemma counts_of_same_target (h : list (string * string)) (self : LoginMusic163)
  (url : string) (newer w : world) :
  Forall (same_target h self url) newer ->
  posts (newer ++ w)%list = (List.length newer + posts w)%nat
  /\ sleeps (newer ++ w)%list = sleeps w
  /\ api_posts (newer ++ w)%list = api_posts w.
Proof.
  induction 1 as [|e newer [d ->] _ IH]; [repeat split|].
  destruct IH as [Hp [Hs Ha]].
  unfold posts, sleeps, api_posts in *. simpl. repeat split; [lia | exact Hs | exact Ha].
Qed.

(** X1. Whatever the remote does, a call of [_login] only adds requests to
    the trace, all to the same address with the same headers, the first
    with the form data it was given; it sends at least one and at most
    [max(RECONNECTION - reconnection_count, 0) + 1] of them, never sleeps
    and never goes through [_post]. *)
Theorem login_requests_are_bounded (R : Z) (h : list (string * string))
  (rem : nat -> request -> outcome) (self : LoginMusic163) (url : string)
  (data : json) (count : Z) (w : world) :
  exists newer : world,
    snd (_login R h rem self url data count w)
    = (newer ++ Post (_login_request h self url data) :: w)%list
    /\ Forall (same_target h self url) newer
    /\ (List.length newer <= Z.to_nat (R - count))%nat
    /\ (posts w < posts (snd (_login R h rem self url data count w))
        <= posts w + 1 + Z.to_nat (R - count))%nat
    /\ sleeps (snd (_login R h rem self url data count w)) = sleeps w
    /\ api_posts (snd (_login R h rem self url data count w)) = api_posts w.
Proof.
  destruct (_login_trace R h rem self url (Z.to_nat (R - count)) data count w eq_refl)
    as [newer [Heq [Hlen Hall]]].
  exists newer. rewrite Heq.
  destruct (counts_of_same_target h self url newer
              (Post (_login_request h self url data) :: w) Hall) as [Hp [Hs Ha]].
  rewrite Hp, Hs, Ha, posts_Post.
  repeat split; try assumption; try reflexivity; lia.
Qed.

Lemma _login_outcome (R : Z) (h : list (string * string))
  (rem : nat -> request -> outcome) (self : LoginMusic163) (url : string)
  (n : nat) :
  forall (data : json) (count : Z) (w : world),
    Z.to_nat (R - count) = n ->
    (exists token : string, fst (_login R h rem self url data count w) = Ok token)
    \/ (exists cause : exn,
           fst (_login R h rem self url data count w)
           = Raise (CannotConnectApi R url cause)
           /\ isinstance cause ExceptionC = true)
    \/ (exists e : exn,
           fst (_login R h rem self url data count w) = Raise e
           /\ isinstance e ExceptionC = false).
Proof.
  induction n as [|n IH]; intros data count w Hn; rewrite _login_step;
    destruct (_login_try h rem self url data w) as [[[token|err] data'] w'].
  - left. eexists; reflexivity.
  - destruct (isinstance err ExceptionC) eqn:Hexc.
    + assert (Hgt : (count + 1 >? R) = true) by (apply Z.gtb_gt; lia).
      rewrite Hgt. right; left. exists err. split; [reflexivity | exact Hexc].
    + right; right. exists err. split; [reflexivity | exact Hexc].
  - left. eexists; reflexivity.
  - destruct (isinstance err ExceptionC) eqn:Hexc.
    + destruct (count + 1 >? R) eqn:Hgt.
      * right; left. exists err. split; [reflexivity | exact Hexc].
      * apply IH.
        destruct (Z.gtb_spec (count + 1) R); [discriminate | lia].
    + right; right. exists err. split; [reflexivity | exact Hexc].
Qed.

(** X2. Whatever the remote does, [_login] ends in one of three ways: it
    returns a token, it raises [CannotConnectApi] with the limit, the path
    and a cause that is an instance of [Exception], or it lets through an
    exception that is not an instance of [Exception].  It never raises
    [Music163BadCode] or [KeyError] itself. *)
Theorem login_raises_only_connection_errors (R : Z) (h : list (string * string))
  (rem : nat -> request -> outcome) (self : LoginMusic163) (url : string)
  (data : json) (count : Z) (w : world) :
  ((exists token : string, fst (_login R h rem self url data count w) = Ok token)
   \/ (exists cause : exn,
          fst (_login R h rem self url data count w)
          = Raise (CannotConnectApi R url cause)
          /\ isinstance cause ExceptionC = true)
   \/ (exists e : exn,
          fst (_login R h rem self url data count w) = Raise e
          /\ isinstance e ExceptionC = false))
  /\ (forall body : json,
        fst (_login R h rem self url data count w) <> Raise (Music163BadCode body))
  /\ (forall k : string,
        fst (_login R h rem self url data count w) <> Raise (KeyError k)).
Proof.
  pose proof (_login_outcome R h rem self url (Z.to_nat (R - count)) data count w
                eq_refl) as Hcases.
  split; [exact Hcases|].
  split; intros x Heq; rewrite Heq in Hcases;
    destruct Hcases as [[token Hok]|[[cause [Hc _]]|[e [He Hexc]]]];
    try discriminate; injection He as <-; discriminate.
Qed.

(** X3. After a failed attempt that the handler takes, with the counter
    still within the limit, [_login] goes on with the local [data] as the
    [try] block left it: the next request carries the parsed body of the
    failed answer as its form data, not the form data of the caller (the
    form data is sent again only when the attempt raised before a body
    was parsed). *)
Theorem login_retry_posts_the_rebound_data (R : Z) (h : list (string * string))
  (rem : nat -> request -> outcome) (self : LoginMusic163) (url : string)
  (data : json) (count : Z) (w : world)
  (Hfail : attempt_fails (rem (posts w) (_login_request h self url data)) = true)
  (Hroom : count + 1 <= R) :
  _login R h rem self url data count w
  = _login R h rem self url
           (rebound_data (rem (posts w) (_login_request h self url data)) data)
           (count + 1) (Post (_login_request h self url data) :: w)
  /\ exists newer : world,
      snd (_login R h rem self url data count w)
      = (newer ++
         Post (_login_request h self url
                 (rebound_data (rem (posts w) (_login_request h self url data)) data))
         :: Post (_login_request h self url data) :: w)%list.
Proof.
  set (o := rem (posts w) (_login_request h self url data)) in *.
  assert (Hstep : _login R h rem self url data count w
                  = _login R h rem self url (rebound_data o data) (count + 1)
                           (Post (_login_request h self url data) :: w)).
  { rewrite _login_step. unfold _login_try. fold o.
    assert (Hle : (count + 1 >? R) = false).
    { destruct (Z.gtb_spec (count + 1) R); [lia | reflexivity]. }
    destruct o as [e|body cookies]; unfold attempt_fails in Hfail; cbn [rebound_data].
    - now rewrite Hfail, Hle.
    - destruct (getitem body "code") as [code|e] eqn:Hget.
      + rewrite Hfail. cbn. now rewrite Hle.
      + rewrite (getitem_raises_Exception body "code" e Hget). now rewrite Hle. }
  split; [exact Hstep|].
  rewrite Hstep.
  destruct (_login_trace R h rem self url (Z.to_nat (R - (count + 1)))
              (rebound_data o data) (count + 1)
              (Post (_login_request h self url data) :: w) eq_refl)
    as [newer [Heq _]].
  exists newer. exact Heq.
Qed.

Lemma login_retry_posts_the_rebound_data_witness :
  _login 3 [] (always_code 502) (LoginMusic163_init None) "/api/login"
         (JObj [("username", JStr "a@b.c")]) 0 []
  = _login 3 [] (always_code 502) (LoginMusic163_init None) "/api/login"
           (JObj [("code", JInt 502)]) (0 + 1)
           [Post (_login_request [] (LoginMusic163_init None) "/api/login"
                    (JObj [("username", JStr "a@b.c")]))]
  /\ exists newer : world,
      snd (_login 3 [] (always_code 502) (LoginMusic163_init None) "/api/login"
                  (JObj [("username", JStr "a@b.c")]) 0 [])
      = (newer ++
         [Post (_login_request [] (LoginMusic163_init None) "/api/login"
                  (JObj [("code", JInt 502)]));
          Post (_login_request [] (LoginMusic163_init None) "/api/login"
                  (JObj [("username", JStr "a@b.c")]))])%list.
Proof.
  apply (login_retry_posts_the_rebound_data 3 [] (always_code 502)
           (LoginMusic163_init None) "/api/login"
           (JObj [("username", JStr "a@b.c")]) 0 []).
  - reflexivity.
  - lia.
Defined.

(** X4. An exception of the attempt that is not an instance of [Exception]
    (a cancellation, a keyboard interrupt) leaves [_login] at once,
    unchanged and unwrapped, after that one request, whatever the counter
    and the limit. *)
Theorem login_lets_base_exceptions_through (R : Z) (h : list (string * string))
  (rem : nat -> request -> outcome) (self : LoginMusic163) (url : string)
  (data : json) (count : Z) (w : world) (e : exn)
  (Hfail : rem (posts w) (_login_request h self url data) = Fails e)
  (Hbase : isinstance e ExceptionC = false) :
  _login R h rem self url data count w
  = (Raise e, Post (_login_request h self url data) :: w).
Proof.
  rewrite _login_step. unfold _login_try. rewrite Hfail, Hbase. reflexivity.
Qed.

(** X5. When the first [k] attempts fail, [k] is within the limit and the
    next attempt is answered with an accepted code, [_login] returns the
    token built from the cookies of that answer, after [k + 1] requests
    and no sleep. *)
Theorem login_succeeds_after_failures (R : Z) (h : list (string * string))
  (rem : nat -> request -> outcome) (self : LoginMusic163) (url : string)
  (data : json) (w : world) (k : nat) (body : json) (cookies : SimpleCookie)
  (Hroom : Z.of_nat k <= R)
  (Hfail : forall (i : nat) (r : request),
      (posts w <= i < posts w + k)%nat -> attempt_fails (rem i r) = true)
  (Hresp : forall r : request, rem (posts w + k)%nat r = Responds body cookies)
  (Hcode : attempt_fails (Responds body cookies) = false) :
  fst (_login R h rem self url data 0 w) = Ok (_SimpleCookieToCookieStr cookies)
  /\ posts (snd (_login R h rem self url data 0 w)) = (posts w + k + 1)%nat
  /\ sleeps (snd (_login R h rem self url data 0 w)) = sleeps w.
Proof.
  destruct (_login_reaches_counter R h rem self url k data w Hroom Hfail)
    as [data_k [w_k [Heq [Hp Hs]]]].
  rewrite Heq, _login_step. unfold _login_try. rewrite Hp, Hresp.
  unfold attempt_fails in Hcode.
  destruct (getitem body "code") as [code|e]; [|discriminate].
  rewrite Hcode. cbn beta iota. cbn [fst snd].
  rewrite posts_Post, sleeps_Post. repeat split; lia.
Qed.

Lemma login_lets_base_exceptions_through_witness :
  _login 3 [] (fun _ _ => Fails CancelledError) (LoginMusic163_init None)
         "/api/login" (JObj []) 0 []
  = (Raise CancelledError,
     [Post (_login_request [] (LoginMusic163_init None) "/api/login" (JObj []))]).
Proof.
  apply (login_lets_base_exceptions_through 3 [] (fun _ _ => Fails CancelledError)
           (LoginMusic163_init None) "/api/login" (JObj []) 0 [] CancelledError);
    reflexivity.
Defined.

Lemma login_succeeds_after_failures_witness :
  fst (_login 3 [] scanned_at_fourth (LoginMusic163_init None)
              "/api/login/qrcode/client/login" (JObj []) 0 [])
  = Ok (_SimpleCookieToCookieStr [("MUSIC_U", mkMorsel "MUSIC_U" "00F1" ["Path=/"])])
  /\ posts (snd (_login 3 [] scanned_at_fourth (LoginMusic163_init None)
                        "/api/login/qrcode/client/login" (JObj []) 0 []))
     = (posts [] + 3 + 1)%nat
  /\ sleeps (snd (_login 3 [] scanned_at_fourth (LoginMusic163_init None)
                         "/api/login/qrcode/client/login" (JObj []) 0 []))
     = sleeps [].
Proof.
  apply (login_succeeds_after_failures 3 [] scanned_at_fourth
           (LoginMusic163_init None) "/api/login/qrcode/client/login" (JObj []) []
           3 (JObj [("code", JInt 803)])
           [("MUSIC_U", mkMorsel "MUSIC_U" "00F1" ["Path=/"])]).
  - lia.
  - intros i r Hi. destruct i as [|[|[|i]]]; try reflexivity. simpl in Hi. lia.
  - intros r. reflexivity.
  - reflexivity.
Defined.

(** ** [_login]: one response *)

(** A retry leaves at least one more request in the trace. *)
Lemma _login_retry_adds_a_request (R : Z) (h : list (string * string))
  (rem : nat -> request -> outcome) (self : LoginMusic163) (url : string)
  (data : json) (count : Z) (w : world) (r : request) :
  snd (_login R h rem self url data count (Post r :: w)) <> Post r :: w.
Proof.
  destruct (_login_trace R h rem self url (Z.to_nat (R - count)) data count
              (Post r :: w) eq_refl) as [newer [Heq _]].
  rewrite Heq. intros H. apply (f_equal (@List.length event)) in H.
  rewrite length_app in H. simpl in H. lia.
Qed.

(** C3, as stated, fails.  A call that receives a response whose code is
    801 can still succeed: the rejected response is retried, and the call
    returns the token of a later accepted response. *)
Lemma login_succeeds_after_a_rejected_response :
  ~ (forall (R : Z) (h : list (string * string)) (rem : nat -> request -> outcome)
       (self : LoginMusic163) (url : string) (data : json) (w : world)
       (body : json) (cookies : SimpleCookie),
        rem (posts w) (_login_request h self url data) = Responds body cookies ->
        ((exists token : string, fst (_login R h rem self url data 0 w) = Ok token)
         <-> (getitem body "code" = Ok (JInt 200)
              \/ getitem body "code" = Ok (JInt 803)))).
Proof.
  intros Hclaim.
  specialize (Hclaim 3 [] scanned_at_fourth (LoginMusic163_init None)
                "/api/login/qrcode/client/login" (JObj []) []
                (JObj [("code", JInt 801)]) [] eq_refl).
  destruct Hclaim as [Hforward _].
  destruct Hforward as [H|H].
  - eexists. vm_compute. reflexivity.
  - vm_compute in H. discriminate H.
  - vm_compute in H. discriminate H.
Qed.

(** C3, amended.  For every response received by an attempt of [_login]:
    the call returns at that attempt, with no further request, exactly
    when the [code] field of the parsed body is 200 or 803, and it then
    returns the session token assembled from the cookies of that response;
    for any other code the [try] block raises [Music163BadCode] with the
    parsed body, the handler of [_login] catches it, and the call goes on
    along the retry path: one more attempt with the counter raised by one
    (posting the parsed body), or [CannotConnectApi] carrying that
    [Music163BadCode] once the counter passes the limit. *)
Theorem login_returns_at_an_accepted_response (R : Z) (h : list (string * string))
  (rem : nat -> request -> outcome) (self : LoginMusic163) (url : string)
  (data : json) (count : Z) (w : world) (body : json) (cookies : SimpleCookie)
  (Hresp : rem (posts w) (_login_request h self url data) = Responds body cookies) :
  ((exists token : string,
       _login R h rem self url data count w
       = (Ok token, Post (_login_request h self url data) :: w))
   <-> (getitem body "code" = Ok (JInt 200) \/ getitem body "code" = Ok (JInt 803)))
  /\ ((getitem body "code" = Ok (JInt 200) \/ getitem body "code" = Ok (JInt 803)) ->
      _login R h rem self url data count w
      = (Ok (_SimpleCookieToCookieStr cookies),
         Post (_login_request h self url data) :: w))
  /\ (forall code : json,
        getitem body "code" = Ok code -> code <> JInt 200 -> code <> JInt 803 ->
        fst (fst (_login_try h rem self url data w)) = Raise (Music163BadCode body)
        /\ handler_catches (guard_eval _login_guard) (Music163BadCode body) = true
        /\ _login R h rem self url data count w
           = if count + 1 >? R
             then (Raise (CannotConnectApi R url (Music163BadCode body)),
                   Post (_login_request h self url data) :: w)
             else _login R h rem self url body (count + 1)
                         (Post (_login_request h self url data) :: w)).
Proof.
  assert (Hretry : forall (e : exn) (d : json),
             ~ (exists token : string,
                   (if count + 1 >? R
                    then (Raise (CannotConnectApi R url e),
                          Post (_login_request h self url data) :: w)
                    else _login R h rem self url d (count + 1)
                                (Post (_login_request h self url data) :: w))
                   = (Ok token, Post (_login_request h self url data) :: w))).
  { intros e d [token Heq]. destruct (count + 1 >? R); [discriminate|].
    apply (f_equal snd) in Heq. cbn [snd] in Heq.
    exact (_login_retry_adds_a_request R h rem self url d (count + 1) w _ Heq). }
  rewrite _login_step. unfold _login_try. rewrite Hresp.
  destruct (getitem body "code") as [code|e] eqn:Hcode.
  - destruct (py_in_ints code [200; 803]) eqn:Hin; cbn [negb fst snd].
    + apply py_in_accepted in Hin.
      assert (Hacc : Ok code = Ok (JInt 200) \/ Ok code = Ok (JInt 803)).
      { destruct Hin as [->| ->]; auto. }
      split; [split; [intros _; exact Hacc | intros _; eauto]|].
      split; [reflexivity|].
      intros code' [= <-] H200 H803. destruct Hin; contradiction.
    + assert (Hrej : ~ (Ok code = Ok (JInt 200) \/ Ok code = Ok (JInt 803))).
      { intros [[= ->]|[= ->]]; discriminate. }
      change (isinstance (Music163BadCode body) ExceptionC) with true.
      cbn iota.
      split; [split; [intros Hex; exfalso; exact (Hretry _ _ Hex)
                     | intros Hacc; contradiction]|].
      split; [intros Hacc; contradiction|].
      intros code' _ _ _. repeat split.
  - rewrite (getitem_raises_Exception body "code" e Hcode).
    split; [split|split].
    + intros Hex. exfalso. exact (Hretry _ _ Hex).
    + intros [H|H]; discriminate.
    + intros [H|H]; discriminate.
    + intros code H. discriminate.
Qed.

Lemma login_returns_at_an_accepted_response_witness :
  _login 3 [] (fun _ _ => Responds (JObj [("code", JInt 803)])
                            [("MUSIC_U", mkMorsel "MUSIC_U" "00F1" [])])
         (LoginMusic163_init None) "/api/login" (JObj []) 0 []
  = (Ok (_SimpleCookieToCookieStr [("MUSIC_U", mkMorsel "MUSIC_U" "00F1" [])]),
     [Post (_login_request [] (LoginMusic163_init None) "/api/login" (JObj []))]).
Proof.
  apply (login_returns_at_an_accepted_response 3 []
           (fun _ _ => Responds (JObj [("code", JInt 803)])
                         [("MUSIC_U", mkMorsel "MUSIC_U" "00F1" [])])
           (LoginMusic163_init None) "/api/login" (JObj []) 0 []
           (JObj [("code", JInt 803)])
           [("MUSIC_U", mkMorsel "MUSIC_U" "00F1" [])] eq_refl).
  right. reflexivity.
Defined.

(** ** The login flows *)

(** X6. [email] keeps the instance and the client it returns in step: on
    success the token returned, the cookie stored in the instance and the
    cookie of the new client are the same string; on failure the stored
    cookie is the one from before the call.  Either way the hasher of the
    instance has taken in the password. *)
Theorem email_keeps_token_and_client_in_step (R : Z) (h : list (string * string))
  (rem : nat -> request -> outcome) (self : LoginMusic163)
  (email_ password : string) (w : world) :
  match email R h rem self email_ password w with
  | (Ok (c, api), self', _) =>
      (exists token : string, c = Some token)
      /\ cookie self' = c /\ api_cookie api = c
      /\ __hl self' = __hl self ++ password
  | (Raise _, self', _) =>
      cookie self' = cookie self /\ __hl self' = __hl self ++ password
  end.
Proof.
  unfold email, _md5.
  destruct (_login R h rem
              (mkLoginMusic163 (cookie self) (hashlib.update (__hl self) password))
              "/api/login"
              (JObj [("username", JStr email_);
                     ("password",
                      JStr (hashlib.hexdigest (hashlib.update (__hl self) password)));
                     ("rememberLogin", JStr "true")]) 0 w) as [[token|e] w'].
  - cbn. repeat split; eauto.
  - cbn. split; reflexivity.
Qed.

(** X7. [cellphone] with [captcha=True] sends the given value as it is,
    under the key [captcha] and with no [password] field, and leaves the
    hasher of the instance alone; with [captcha=False] it sends, under
    [password], the digest that [_md5] returns (the digest of everything
    the hasher has taken in, the password last) and the hasher has taken in
    the password.  In both cases this is the form data of the first
    request of the call. *)
Theorem cellphone_sends_captcha_verbatim (R : Z) (h : list (string * string))
  (rem : nat -> request -> outcome) (self : LoginMusic163) (phone : json)
  (password : string) (country_code : json) (w : world) :
  (exists newer : world,
      snd (cellphone R h rem self phone password true country_code w)
      = (newer ++
         Post (_login_request h self "/api/login/cellphone"
                 (JObj [("phone", phone); ("countrycode", country_code);
                        ("captcha", JStr password);
                        ("rememberLogin", JStr "true")])) :: w)%list)
  /\ __hl (snd (fst (cellphone R h rem self phone password true country_code w)))
     = __hl self
  /\ (exists newer : world,
      snd (cellphone R h rem self phone password false country_code w)
      = (newer ++
         Post (_login_request h self "/api/login/cellphone"
                 (JObj [("phone", phone); ("countrycode", country_code);
                        ("password",
                         JStr (hashlib.hexdigest (__hl self ++ password)%string));
                        ("rememberLogin", JStr "true")])) :: w)%list)
  /\ __hl (snd (fst (cellphone R h rem self phone password false country_code w)))
     = __hl self ++ password.
Proof.
  unfold cellphone, _md5. cbn [negb].
  split; [|split; [|split]].
  - destruct (_login_trace R h rem self "/api/login/cellphone" _
                (JObj [("phone", phone); ("countrycode", country_code);
                       ("captcha", JStr password); ("rememberLogin", JStr "true")])
                0 w eq_refl) as [newer [Heq _]].
    exists newer. rewrite <- Heq.
    destruct (_login R h rem self "/api/login/cellphone" _ 0 w) as [[token|e] w'];
      reflexivity.
  - destruct (_login R h rem self "/api/login/cellphone" _ 0 w) as [[token|e] w'];
      reflexivity.
  - set (self1 := mkLoginMusic163 (cookie self) (hashlib.update (__hl self) password)).
    destruct (_login_trace R h rem self1 "/api/login/cellphone" _
                (JObj [("phone", phone); ("countrycode", country_code);
                       ("password",
                        JStr (hashlib.hexdigest (hashlib.update (__hl self) password)));
                       ("rememberLogin", JStr "true")])
                0 w eq_refl) as [newer [Heq _]].
    exists newer. change (_login_request h self) with (_login_request h self1).
    unfold hashlib.update in *. rewrite <- Heq.
    destruct (_login R h rem self1 "/api/login/cellphone" _ 0 w) as [[token|e] w'];
      reflexivity.
  - destruct (_login R h rem _ "/api/login/cellphone" _ 0 w) as [[token|e] w'];
      reflexivity.
Qed.

Lemma BadCode_instance_is_Exception (e : exn) :
  isinstance e ExceptionC = false -> isinstance e Music163BadCodeC = false.
Proof. destruct e; simpl; intros H; try reflexivity; discriminate. Qed.

(** X8. Whatever the remote does and however long [qr] runs, when it
    returns it returns a token that is not empty, stored in the instance
    and given to the client; when it raises, the exception is not a
    [Music163BadCode].  So [qr] never returns an empty or missing token:
    its handler for the status codes 801, 802 and 800 is never entered. *)
Theorem qr_returns_only_with_a_token (R : Z) (h : list (string * string))
  (rem : nat -> request -> outcome) (qr_key : string) (time_sleep : Z)
  (fuel : nat) :
  forall (self : LoginMusic163) (w : world),
    match qr R h rem fuel self qr_key time_sleep w with
    | None => True
    | Some (Ok (c, api), self', _) =>
        cookie_truthy c = true /\ cookie self' = c /\ api_cookie api = c
    | Some (Raise e, _, _) => isinstance e Music163BadCodeC = false
    end.
Proof.
  induction fuel as [|fuel IH]; intros self w; [exact I|].
  cbn [qr]. unfold qr_check.
  pose proof (_login_outcome R h rem self "/api/login/qrcode/client/login"
                _ (JObj [("key", JStr qr_key); ("type", JInt 1)]) 0 w eq_refl)
    as Hcases.
  destruct (_login R h rem self "/api/login/qrcode/client/login"
              (JObj [("key", JStr qr_key); ("type", JInt 1)]) 0 w) as [[token|err] w1].
  - cbn [set_cookie cookie].
    destruct (cookie_truthy (Some token)) eqn:Htruthy.
    + repeat split; assumption.
    + apply IH.
  - assert (Hnot : isinstance err Music163BadCodeC = false).
    { destruct Hcases as [[token Hok]|[[cause [Hc _]]|[e [He Hexc]]]].
      - discriminate.
      - cbn in Hc. injection Hc as ->. reflexivity.
      - cbn in He. injection He as ->. now apply BadCode_instance_is_Exception. }
    rewrite Hnot. exact Hnot.
Qed.

(** ** The session token, again *)

Lemma cookie_str_empty_iff (cookie : SimpleCookie) :
  _SimpleCookieToCookieStr cookie = "" <-> cookie = [].
Proof.
  split; [|intros ->; reflexivity].
  destruct cookie as [|[name m] cookie]; [reflexivity|].
  unfold _SimpleCookieToCookieStr. rewrite fold_cookie_str.
  change (dict_values ((name, m) :: cookie)) with (m :: dict_values cookie).
  rewrite concat_fragments. cbn [append].
  destruct (String.concat "; " (map cookie_data_of (m :: dict_values cookie)));
    discriminate.
Qed.

(** X12. The session token is empty exactly when the response set no
    cookie; so the truth test [if self.cookie] of [qr] on a fresh token
    holds exactly when the response set at least one cookie. *)
Theorem token_is_empty_iff_no_cookie (cookie : SimpleCookie) :
  (_SimpleCookieToCookieStr cookie = "" <-> cookie = [])
  /\ cookie_truthy (Some (_SimpleCookieToCookieStr cookie))
     = negb (Nat.eqb (List.length cookie) 0).
Proof.
  split; [apply cookie_str_empty_iff|].
  unfold cookie_truthy.
  destruct cookie as [|x cookie]; [reflexivity|].
  destruct (String.eqb_spec (_SimpleCookieToCookieStr (x :: cookie)) "") as [He|Hne];
    [|reflexivity].
  apply cookie_str_empty_iff in He. discriminate.
Qed.

Lemma prefix_sep_cons (c : ascii) (t : string) :
  String.prefix "; " (String c t)
  = match t with
    | EmptyString => false
    | String d _ => Ascii.eqb c ";" && Ascii.eqb d " "
    end.
Proof.
  cbn [String.prefix].
  destruct (ascii_dec ";" c) as [Hc|Hc].
  - subst c. destruct t as [|d t]; [reflexivity|].
    cbn [String.prefix].
    destruct (ascii_dec " " d) as [Hd|Hd].
    + subst d. destruct t; reflexivity.
    + apply not_eq_sym, Ascii.eqb_neq in Hd. rewrite Hd. reflexivity.
  - apply not_eq_sym, Ascii.eqb_neq in Hc. rewrite Hc.
    destruct t; reflexivity.
Qed.

Lemma split_first_without_sep (s suffix : string) :
  occurs "; " s = false ->
  suffix = "" \/ (exists r : string, suffix = "; " ++ r) ->
  split_first "; " (s ++ suffix) = s.
Proof.
  intros Hs Hsuffix. induction s as [|c s IH].
  - destruct Hsuffix as [->|[r ->]]; [reflexivity|].
    change ("" ++ "; " ++ r) with (String ";" (String " " r)).
    cbn [split_first]. now rewrite prefix_sep_cons.
  - cbn [occurs] in Hs. apply orb_false_iff in Hs. destruct Hs as [Hp Hs].
    change (String c s ++ suffix) with (String c (s ++ suffix)).
    cbn [split_first].
    assert (Hp' : String.prefix "; " (String c (s ++ suffix)) = false).
    { rewrite prefix_sep_cons in *.
      destruct s as [|d s]; [|exact Hp].
      destruct Hsuffix as [->|[r ->]]; [reflexivity|].
      simpl. apply andb_false_r. }
    rewrite Hp', IH; [reflexivity | exact Hs].
Qed.

Lemma attrs_suffix_shape (m : Morsel) :
  attrs_suffix m = "" \/ (exists r : string, attrs_suffix m = "; " ++ r).
Proof.
  unfold attrs_suffix. destruct (attrs m) as [|a rest]; [left; reflexivity|].
  right. destruct rest as [|b rest].
  - exists a. reflexivity.
  - simpl. eexists. reflexivity.
Qed.

Lemma ordinary_fragment (m : Morsel) :
  ordinary m = true -> cookie_data_of m = key m ++ "=" ++ coded_value m.
Proof.
  unfold ordinary. intros H. apply andb_true_iff in H. destruct H as [Hkey Hsep].
  apply negb_true_iff in Hsep. unfold cookie_data_of.
  rewrite Morsel_str_lstrip.
  destruct (key m) as [|c rest] eqn:Ek; [discriminate|].
  apply negb_true_iff in Hkey. cbn [lstrip]. rewrite Hkey.
  rewrite <- (append_assoc (String c rest) "=" (coded_value m ++ attrs_suffix m)).
  rewrite <- (append_assoc (String c rest ++ "=")).
  rewrite (append_assoc (String c rest) "=" (coded_value m)).
  apply split_first_without_sep; [exact Hsep | apply attrs_suffix_shape].
Qed.

(** X11. Cookies whose name starts with a character outside the stripped
    set and whose name and value hold no semicolon followed by a space
    reach the token unchanged, as name=value followed by a semicolon and a
    space each, in the order of the jar; their attributes (Path, Max-Age,
    ...) are dropped. *)
Theorem ordinary_cookies_pass_unchanged (cookie : SimpleCookie) :
  forallb ordinary (dict_values cookie) = true ->
  _SimpleCookieToCookieStr cookie
  = String.concat ""
      (map (fun m => key m ++ "=" ++ coded_value m ++ "; ") (dict_values cookie)).
Proof.
  intros Hall. unfold _SimpleCookieToCookieStr. rewrite fold_cookie_str.
  simpl append. f_equal.
  induction (dict_values cookie) as [|m ms IH]; [reflexivity|].
  cbn [forallb] in Hall. apply andb_true_iff in Hall. destruct Hall as [Hm Hms].
  simpl map. rewrite (IH Hms), (ordinary_fragment m Hm). now rewrite !append_assoc.
Qed.

Lemma ordinary_cookies_pass_unchanged_witness :
  _SimpleCookieToCookieStr
    [("MUSIC_U", mkMorsel "MUSIC_U" "00F1" ["Max-Age=1296000"; "Path=/"]);
     ("__csrf", mkMorsel "__csrf" "9a" [])]
  = String.concat ""
      (map (fun m => key m ++ "=" ++ coded_value m ++ "; ")
           (dict_values
              [("MUSIC_U", mkMorsel "MUSIC_U" "00F1" ["Max-Age=1296000"; "Path=/"]);
               ("__csrf", mkMorsel "__csrf" "9a" [])])).
Proof.
  apply (ordinary_cookies_pass_unchanged
           [("MUSIC_U", mkMorsel "MUSIC_U" "00F1" ["Max-Age=1296000"; "Path=/"]);
            ("__csrf", mkMorsel "__csrf" "9a" [])]).
  reflexivity.
Defined.

Lemma split_first_has_no_sep (s : string) : occurs "; " (split_first "; " s) = false.
Proof.
  induction s as [|c t IH]; [reflexivity|].
  cbn [split_first].
  destruct (String.prefix "; " (String c t)) eqn:Hp; [reflexivity|].
  cbn [occurs]. rewrite IH, orb_false_r.
  rewrite prefix_sep_cons in *.
  destruct t as [|d t]; [reflexivity|].
  cbn [split_first].
  destruct (String.prefix "; " (String d t)); [reflexivity | exact Hp].
Qed.

(** X13. No fragment of the token holds a semicolon followed by a space:
    each cookie contributes one piece between the separators of the
    token, whatever its name, value and attributes. *)
Theorem fragment_has_no_separator (m : Morsel) :
  occurs "; " (cookie_data_of m) = false.
Proof. apply split_first_has_no_sep. Qed.

Lemma _md5_calls_state (inputs : list string) :
  forall (self : LoginMusic163) (s : string),
    __hl (snd (_md5_calls self inputs)) ++ s
    = __hl self ++ fold_right append s inputs
    /\ cookie (snd (_md5_calls self inputs)) = cookie self.
Proof.
  induction inputs as [|x inputs IH]; intros self s; [split; reflexivity|].
  cbn [_md5_calls]. unfold _md5. cbn beta iota zeta.
  destruct (_md5_calls
              (mkLoginMusic163 (cookie self) (hashlib.update (__hl self) x)) inputs)
    as [ds self2] eqn:H2.
  destruct (IH (mkLoginMusic163 (cookie self) (hashlib.update (__hl self) x)) s)
    as [Hd Hc].
  rewrite H2 in Hd, Hc. cbn [snd __hl cookie] in *.
  split; [|exact Hc].
  rewrite Hd. unfold hashlib.update. cbn [fold_right].
  now rewrite append_assoc.
Qed.

(** ** The hasher, again *)

(** X14. After any sequence of [_md5] calls on an instance, the next call
    returns the digest of what the hasher held at the start followed by
    all the inputs since, in order, the new input last; the cookie of the
    instance is never touched. *)
Theorem md5_digest_covers_all_earlier_inputs (inputs : list string)
  (self : LoginMusic163) (s : string) :
  fst (_md5 (snd (_md5_calls self inputs)) s)
  = hashlib.hexdigest (__hl self ++ fold_right append s inputs)
  /\ cookie (snd (_md5 (snd (_md5_calls self inputs)) s)) = cookie self.
Proof.
  destruct (_md5_calls_state inputs self s) as [Hd Hc].
  unfold _md5. cbn [fst snd cookie]. unfold hashlib.update.
  rewrite Hd. split; [reflexivity | exact Hc].
Qed.

(** ** The polling loop *)

Lemma _login_first_try_ok (R : Z) (h : list (string * string))
  (rem : nat -> request -> outcome) (self : LoginMusic163) (url : string)
  (data : json) (count : Z) (w : world) (body : json) (cookies : SimpleCookie) :
  rem (posts w) (_login_request h self url data) = Responds body cookies ->
  attempt_fails (Responds body cookies) = false ->
  _login R h rem self url data count w
  = (Ok (_SimpleCookieToCookieStr cookies), Post (_login_request h self url data) :: w).
Proof.
  intros Hresp Hcode. rewrite _login_step. unfold _login_try. rewrite Hresp.
  unfold attempt_fails in Hcode.
  destruct (getitem body "code") as [code|e]; [|discriminate].
  now rewrite Hcode.
Qed.

Lemma accepted_without_cookie_inv (o : outcome) :
  accepted_without_cookie o = true ->
  exists body : json, o = Responds body [] /\ attempt_fails (Responds body []) = false.
Proof.
  destruct o as [e|body [|c cookies]]; try discriminate.
  unfold accepted_without_cookie. intros H. exists body. split; [reflexivity|].
  now apply negb_true_iff.
Qed.

(** X9. Against a remote that answers every poll with an accepted code
    and no cookie, [qr] never returns: whatever the number of iterations
    allowed, the loop is still running when they are used up. *)
Theorem qr_polls_forever_without_cookie (R : Z) (h : list (string * string))
  (rem : nat -> request -> outcome) (qr_key : string) (time_sleep : Z)
  (Hremote : forall (k : nat) (r : request), accepted_without_cookie (rem k r) = true)
  (fuel : nat) :
  forall (self : LoginMusic163) (w : world),
    qr R h rem fuel self qr_key time_sleep w = None.
Proof.
  induction fuel as [|fuel IH]; intros self w; [reflexivity|].
  cbn [qr]. unfold qr_check.
  destruct (accepted_without_cookie_inv _
              (Hremote (posts w)
                 (_login_request h self "/api/login/qrcode/client/login"
                    (JObj [("key", JStr qr_key); ("type", JInt 1)]))))
    as [body [Hresp Hcode]].
  rewrite (_login_first_try_ok R h rem self _ _ 0 w body [] Hresp Hcode).
  cbn. apply IH.
Qed.

Lemma posts_Sleep (secs : Z) (w : world) : posts (Sleep secs :: w) = posts w.
Proof. reflexivity. Qed.

Lemma repeat_snoc {A : Type} (x : A) (n : nat) (l : list A) :
  (repeat x n ++ x :: l)%list = (repeat x (S n) ++ l)%list.
Proof. induction n as [|n IH]; [reflexivity|]. simpl. now rewrite IH. Qed.

(** X10. When the first [m] polls are answered with an accepted code and
    no cookie and the next one with an accepted code and some cookie, [qr]
    returns the token of that answer and a client holding it, stores it in
    the instance, and has sent [m + 1] requests and slept [m] times, each
    time for [time_sleep]. *)
Theorem qr_returns_at_first_cookie (R : Z) (h : list (string * string))
  (rem : nat -> request -> outcome) (qr_key : string) (time_sleep : Z)
  (body : json) (cookies : SimpleCookie) (m : nat) :
  forall (self : LoginMusic163) (w : world) (spare : nat),
    (forall (i : nat) (r : request),
        (posts w <= i < posts w + m)%nat -> accepted_without_cookie (rem i r) = true) ->
    (forall r : request, rem (posts w + m)%nat r = Responds body cookies) ->
    attempt_fails (Responds body cookies) = false ->
    cookies <> [] ->
    exists w' : world,
      qr R h rem (S m + spare) self qr_key time_sleep w
      = Some (Ok (Some (_SimpleCookieToCookieStr cookies),
                  mkMusic163Api (Some (_SimpleCookieToCookieStr cookies))),
              mkLoginMusic163 (Some (_SimpleCookieToCookieStr cookies)) (__hl self),
              w')
      /\ posts w' = (posts w + m + 1)%nat
      /\ filter is_Sleep w' = (repeat (Sleep time_sleep) m ++ filter is_Sleep w)%list.
Proof.
  induction m as [|m IH]; intros self w spare Hwait Hresp Hcode Hcookies.
  - cbn [Nat.add qr]. unfold qr_check.
    rewrite Nat.add_0_r in Hresp.
    rewrite (_login_first_try_ok R h rem self _ _ 0 w body cookies
               (Hresp _) Hcode).
    cbn [set_cookie cookie].
    assert (Htruthy : cookie_truthy (Some (_SimpleCookieToCookieStr cookies)) = true).
    { unfold cookie_truthy.
      destruct (String.eqb_spec (_SimpleCookieToCookieStr cookies) "") as [He|Hne];
        [|reflexivity].
      apply cookie_str_empty_iff in He. contradiction. }
    rewrite Htruthy. eexists. split; [reflexivity|].
    rewrite posts_Post. split; [lia | reflexivity].
  - cbn [Nat.add qr]. unfold qr_check.
    destruct (accepted_without_cookie_inv _
                (Hwait (posts w)
                   (_login_request h self "/api/login/qrcode/client/login"
                      (JObj [("key", JStr qr_key); ("type", JInt 1)]))
                   ltac:(lia)))
      as [body0 [Hresp0 Hcode0]].
    rewrite (_login_first_try_ok R h rem self _ _ 0 w body0 [] Hresp0 Hcode0).
    cbn [set_cookie cookie _SimpleCookieToCookieStr dict_values map fold_left
         cookie_truthy String.eqb negb].
    destruct (IH (mkLoginMusic163 (Some "") (__hl self))
                (Sleep time_sleep
                 :: Post (_login_request h self "/api/login/qrcode/client/login"
                            (JObj [("key", JStr qr_key); ("type", JInt 1)])) :: w)
                spare) as [w' [Heq [Hp Hs]]].
    + intros i r Hi. apply Hwait. rewrite posts_Sleep, posts_Post in Hi. lia.
    + intros r. rewrite posts_Sleep, posts_Post.
      replace (S (posts w) + m)%nat with (posts w + S m)%nat by lia.
      apply Hresp.
    + exact Hcode.
    + exact Hcookies.
    + exists w'. split; [exact Heq|].
      split.
      * rewrite Hp, posts_Sleep, posts_Post. lia.
      * rewrite Hs. simpl. apply repeat_snoc.
Qed.

Lemma qr_polls_forever_without_cookie_witness :
  qr 3 [] (always_code 803) 5 (LoginMusic163_init None) "key" 3 [] = None.
Proof.
  apply (qr_polls_forever_without_cookie 3 [] (always_code 803) "key" 3).
  intros k r. reflexivity.
Defined.

Lemma qr_returns_at_first_cookie_witness :
  exists w' : world,
    qr 3 [] (cookie_after 2) (3 + 0) (LoginMusic163_init None) "key" 3 []
    = Some (Ok (Some (_SimpleCookieToCookieStr
                        [("MUSIC_U", mkMorsel "MUSIC_U" "00F1" ["Path=/"])]),
                mkMusic163Api
                  (Some (_SimpleCookieToCookieStr
                           [("MUSIC_U", mkMorsel "MUSIC_U" "00F1" ["Path=/"])]))),
            mkLoginMusic163
              (Some (_SimpleCookieToCookieStr
                       [("MUSIC_U", mkMorsel "MUSIC_U" "00F1" ["Path=/"])]))
              (__hl (LoginMusic163_init None)),
            w')
    /\ posts w' = (posts [] + 2 + 1)%nat
    /\ filter is_Sleep w' = (repeat (Sleep 3) 2 ++ filter is_Sleep [])%list.
Proof.
  apply (qr_returns_at_first_cookie 3 [] (cookie_after 2) "key" 3
           (JObj [("code", JInt 803)])
           [("MUSIC_U", mkMorsel "MUSIC_U" "00F1" ["Path=/"])] 2
           (LoginMusic163_init None) [] 0%nat).
  - intros i r Hi. destruct i as [|[|i]]; try reflexivity. simpl in Hi. lia.
  - intros r. reflexivity.
  - reflexivity.
  - discriminate.
Defined.

(** ** The API client, again *)

(** X17. When the playlist has at most a thousand tracks, [playlist] makes
    the one request for the playlist and returns its payload as it came,
    whatever the rest of the payload holds (a [tracks] field is not even
    needed); the song-detail endpoint is not called. *)
Theorem playlist_up_to_1000_tracks_is_one_request
  (answer : nat -> string -> option string -> json -> result json)
  (id_format : json -> bool -> json) (self : Music163Api) (id_ : json) (w : world)
  (data pd : json) (entries ids : list json)
  (Hanswer : answer (api_posts w) "/api/v6/playlist/detail" (api_cookie self)
                    (JObj [("id", id_); ("n", JInt 100000)]) = Ok data)
  (Hplaylist : getitem data "playlist" = Ok pd)
  (Hentries : getitem pd "trackIds" = Ok (JArr entries))
  (Hids : comprehension song_get_id entries = Ok ids)
  (Hsmall : (List.length ids <= 1000)%nat) :
  playlist answer id_format self id_ w
  = (Ok (mkPlayList pd (api_cookie self)),
     [ApiPost "/api/v6/playlist/detail" (api_cookie self)
              (JObj [("id", id_); ("n", JInt 100000)])] ++ w)%list.
Proof.
  unfold playlist, bind at 1, _post. rewrite Hanswer.
  unfold bind at 1, lift at 1. rewrite Hplaylist.
  unfold bind at 1, lift at 1. rewrite Hentries.
  unfold bind at 1, lift at 1. cbn [as_list].
  unfold bind at 1, lift at 1. rewrite Hids.
  rewrite skipn_all2 by exact Hsmall. reflexivity.
Qed.

Lemma playlist_up_to_1000_tracks_is_one_request_witness :
  playlist (playlist_server 1000) ids_as_sent (mkMusic163Api None) (JInt 7) []
  = (Ok (mkPlayList
           (JObj [("trackIds",
                   JArr (map (fun i => JObj [("id", i)]) (track_ids 1000)));
                  ("tracks", JArr (map song_of (firstn 1000 (track_ids 1000))))])
           (api_cookie (mkMusic163Api None))),
     [ApiPost "/api/v6/playlist/detail" (api_cookie (mkMusic163Api None))
              (JObj [("id", JInt 7); ("n", JInt 100000)])] ++ [])%list.
Proof.
  apply (playlist_up_to_1000_tracks_is_one_request (playlist_server 1000) ids_as_sent
           (mkMusic163Api None) (JInt 7) []
           (JObj [("code", JInt 200);
                  ("playlist",
                   JObj [("trackIds",
                          JArr (map (fun i => JObj [("id", i)]) (track_ids 1000)));
                         ("tracks",
                          JArr (map song_of (firstn 1000 (track_ids 1000))))])])
           _
           (map (fun i => JObj [("id", i)]) (track_ids 1000))
           (track_ids 1000)).
  - reflexivity.
  - reflexivity.
  - reflexivity.
  - vm_compute. reflexivity.
  - apply Nat.leb_le. vm_compute. reflexivity.
Defined.

(** X18. What [music] returns follows the number of songs in the answer,
    not the number of ids asked for: one song gives one [Music], any other
    number (none included) a generator.  So [list(await music(ids))], as
    [playlist] calls it, gives the songs in order unless exactly one song
    came back, and then raises [TypeError]. *)
Theorem list_of_music_fails_on_a_single_song
  (answer : nat -> string -> option string -> json -> result json)
  (id_format : json -> bool -> json) (self : Music163Api) (ids : json) (w : world)
  (data : json) (songs : list json)
  (Hanswer : answer (api_posts w) "/api/v3/song/detail" (api_cookie self)
                    (JObj [("c", id_format ids true)]) = Ok data)
  (Hsongs : getitem data "songs" = Ok (JArr songs)) :
  fst ((fetched <- music answer id_format self ids ;; lift (py_list fetched)) w)
  = match songs with
    | [_] => Raise (TypeError "'Music' object is not iterable")
    | _ => Ok (map (fun song => mkMusic song (api_cookie self)) songs)
    end
  /\ fst (music answer id_format self ids w)
     = match songs with
       | [song] => Ok (OneMusic (mkMusic song (api_cookie self)))
       | _ => Ok (MusicGenerator
                    (map (fun song => mkMusic song (api_cookie self)) songs))
       end.
Proof.
  unfold bind at 1. unfold music, bind, _post, lift. rewrite Hanswer, Hsongs.
  cbn [as_list]. destruct songs as [|s1 [|s2 songs]]; split; reflexivity.
Qed.

Lemma list_of_music_fails_on_a_single_song_witness :
  fst ((fetched <- music (playlist_server 3) ids_as_sent (mkMusic163Api None)
                         (JArr [JInt 5]) ;;
        lift (py_list fetched)) [])
  = Raise (TypeError "'Music' object is not iterable")
  /\ fst (music (playlist_server 3) ids_as_sent (mkMusic163Api None) (JArr [JInt 5]) [])
     = Ok (OneMusic (mkMusic (song_of (JInt 5)) (api_cookie (mkMusic163Api None)))).
Proof.
  apply (list_of_music_fails_on_a_single_song (playlist_server 3) ids_as_sent
           (mkMusic163Api None) (JArr [JInt 5]) []
           (JObj [("code", JInt 200); ("songs", JArr [song_of (JInt 5)])])
           [song_of (JInt 5)]); reflexivity.
Defined.

Lemma playlist_server_detail (n k : nat) (c : option string) (chunk : list json) :
  exists resp : json,
    playlist_server n k "/api/v3/song/detail" c
                    (JObj [("c", ids_as_sent (JArr chunk) true)]) = Ok resp
    /\ getitem resp "songs" = Ok (JArr (map song_of chunk)).
Proof. eexists. split; reflexivity. Qed.

Lemma playlist_appends_batches_witness :
  exists (pl : PlayList) (w' : world),
    playlist (playlist_server 2500) ids_as_sent (mkMusic163Api None) (JInt 7) []
    = (Ok pl, w')
    /\ getitem (playlist_data pl) "tracks"
       = Ok (JArr (map song_of (firstn 1000 (track_ids 2500))
                   ++ map song_of (skipn 1000 (track_ids 2500)))%list)
    /\ api_posts w'
       = (api_posts [] + 1 + (List.length (track_ids 2500) - 1000 + 999) / 1000)%nat.
Proof.
  apply (playlist_appends_batches (playlist_server 2500) ids_as_sent song_of
           (mkMusic163Api None)
           (fun k chunk => playlist_server_detail 2500 k None chunk)
           (JInt 7) []
           (JObj [("code", JInt 200);
                  ("playlist",
                   JObj [("trackIds",
                          JArr (map (fun i => JObj [("id", i)]) (track_ids 2500)));
                         ("tracks",
                          JArr (map song_of (firstn 1000 (track_ids 2500))))])])
           [("trackIds", JArr (map (fun i => JObj [("id", i)]) (track_ids 2500)));
            ("tracks", JArr (map song_of (firstn 1000 (track_ids 2500))))]
           (map (fun i => JObj [("id", i)]) (track_ids 2500))
           (track_ids 2500)
           (map song_of (firstn 1000 (track_ids 2500)))).
  - reflexivity.
  - reflexivity.
  - reflexivity.
  - vm_compute. reflexivity.
  - reflexivity.
  - vm_compute. intros H. discriminate H.
Defined.

Lemma playlist_single_last_batch_raises_witness :
  exists w' : world,
    playlist (playlist_server 2001) ids_as_sent (mkMusic163Api None) (JInt 7) []
    = (Raise (TypeError "'Music' object is not iterable"), w').
Proof.
  apply (playlist_single_last_batch_raises (playlist_server 2001) ids_as_sent song_of
           (mkMusic163Api None)
           (fun k chunk => playlist_server_detail 2001 k None chunk)
           (JInt 7) []
           (JObj [("code", JInt 200);
                  ("playlist",
                   JObj [("trackIds",
                          JArr (map (fun i => JObj [("id", i)]) (track_ids 2001)));
                         ("tracks",
                          JArr (map song_of (firstn 1000 (track_ids 2001))))])])
           [("trackIds", JArr (map (fun i => JObj [("id", i)]) (track_ids 2001)));
            ("tracks", JArr (map song_of (firstn 1000 (track_ids 2001))))]
           (map (fun i => JObj [("id", i)]) (track_ids 2001))
           (track_ids 2001)
           (map song_of (firstn 1000 (track_ids 2001)))).
  - reflexivity.
  - reflexivity.
  - reflexivity.
  - vm_compute. reflexivity.
  - reflexivity.
  - apply Nat.ltb_lt. vm_compute. reflexivity.
  - vm_compute. reflexivity.
Defined.

(** ** The captcha demo *)

Lemma _login_keeps_api_posts (R : Z) (h : list (string * string))
  (rem : nat -> request -> outcome) (self : LoginMusic163) (url : string)
  (data : json) (count : Z) (w : world) :
  api_posts (snd (_login R h rem self url data count w)) = api_posts w.
Proof.
  destruct (_login_trace R h rem self url (Z.to_nat (R - count)) data count w eq_refl)
    as [newer [Heq [_ Hall]]].
  rewrite Heq.
  destruct (counts_of_same_target h self url newer
              (Post (_login_request h self url data) :: w) Hall) as [_ [_ Ha]].
  rewrite Ha. reflexivity.
Qed.

(** X19. The demo never gets to print the user: [main] never returns
    normally and never calls [my] (its only call through [_post] is the
    captcha request).  When the captcha is sent and the login succeeds,
    the two-item tuple of [cellphone] is unpacked into three names and
    [main] dies with [ValueError], having printed only the answer to the
    captcha request; otherwise the error of [send_captcha] or of the login
    is what leaves [main]. *)
Theorem demo_never_asks_who_am_i (R : Z) (h : list (string * string))
  (rem : nat -> request -> outcome)
  (answer : nat -> string -> option string -> json -> result json)
  (typed_phone typed_code : string) (w : world) :
  main R h rem answer typed_phone typed_code w
  = match send_captcha answer (LoginMusic163_init None) (JStr typed_phone)
                       (JStr "86") w with
    | (Raise e, w1) => (Uncaught e, [Input "you login phone: "], w1)
    | (Ok sent, w1) =>
        match cellphone R h rem (LoginMusic163_init None) (JStr typed_phone)
                        typed_code true (JStr "86") w1 with
        | (Raise e, _, w2) =>
            (Uncaught e,
             [Input "you captcha code: "; Print [PJson sent];
              Input "you login phone: "], w2)
        | (Ok _, _, w2) =>
            (UncaughtValueError "not enough values to unpack (expected 3, got 2)",
             [Input "you captcha code: "; Print [PJson sent];
              Input "you login phone: "], w2)
        end
    end
  /\ fst (fst (main R h rem answer typed_phone typed_code w)) <> Returned
  /\ api_posts (snd (main R h rem answer typed_phone typed_code w))
     = S (api_posts w)
  /\ snd (main R h rem answer typed_phone typed_code w)
     = match send_captcha answer (LoginMusic163_init None) (JStr typed_phone)
                          (JStr "86") w with
       | (Raise _, w1) => w1
       | (Ok _, w1) =>
           snd (cellphone R h rem (LoginMusic163_init None) (JStr typed_phone)
                          typed_code true (JStr "86") w1)
       end.
Proof.
  unfold main.
  destruct (send_captcha answer (LoginMusic163_init None) (JStr typed_phone)
              (JStr "86") w) as [[sent|e] w1] eqn:Hsend.
  - assert (Hw1 : api_posts w1 = S (api_posts w)).
    { unfold send_captcha, _post in Hsend. injection Hsend as _ <-. reflexivity. }
    assert (Hw2 : api_posts (snd (cellphone R h rem (LoginMusic163_init None)
                                    (JStr typed_phone) typed_code true (JStr "86") w1))
                  = api_posts w1).
    { unfold cellphone. cbn [negb].
      pose proof (_login_keeps_api_posts R h rem (LoginMusic163_init None)
                    "/api/login/cellphone"
                    (JObj [("phone", JStr typed_phone); ("countrycode", JStr "86");
                           ("captcha", JStr typed_code);
                           ("rememberLogin", JStr "true")]) 0 w1) as Hkeep.
      destruct (_login R h rem (LoginMusic163_init None) "/api/login/cellphone"
                  (JObj [("phone", JStr typed_phone); ("countrycode", JStr "86");
                         ("captcha", JStr typed_code);
                         ("rememberLogin", JStr "true")]) 0 w1) as [[token|e] w2];
        exact Hkeep. }
    destruct (cellphone R h rem (LoginMusic163_init None) (JStr typed_phone)
                typed_code true (JStr "86") w1) as [[[[c api]|e] self'] w2];
      cbn [snd] in Hw2; cbn [unpack3 fst snd];
      (split; [reflexivity|]); (split; [discriminate|]);
      (split; [lia | reflexivity]).
  - assert (Hw1 : api_posts w1 = S (api_posts w)).
    { unfold send_captcha, _post in Hsend. injection Hsend as _ <-. reflexivity. }
    cbn [fst snd]. split; [reflexivity|]. split; [discriminate|].
    split; [exact Hw1 | reflexivity].
Qed.
